(** * Trivia API backend: the request handlers of [flaskr/__init__.py]

    A shallow embedding of the Flask application built by [create_app]:
    the pagination helper, the seven view functions, the URL map and the
    error handlers, followed by the properties of the question-retrieval
    and quiz-selection logic.

    Python values are embedded as follows.
    - JSON scalars are [value]s and dictionaries are [gmap]s; a request
      body is a dictionary of scalars that may also carry the category
      object and the array of served identifiers of a quiz request.
    - An exception is an [exn]; a computation that may raise and that
      reads or writes the database and the random generator is an [M].
    - The [while] loop of the quiz view is run with a step budget; a
      result of [None] means that the loop is still running when the
      budget is spent. *)

From Stdlib Require Import ZArith List String Ascii Bool Lia DecimalString DecimalPos.
From stdpp Require Import base gmap strings list.

Open Scope Z_scope.

(** ** Values, exceptions and outcomes *)

Inductive value :=
| VNone
| VInt (n : Z)
| VStr (s : string).

Global Instance value_eq_dec : EqDecision value.
Proof. solve_decision. Defined.

(** Python's [str] on an integer. *)
Definition str (n : Z) : string := NilZero.string_of_int (Z.to_int n).

Inductive exn :=
| HTTPException (code : Z)          (* raised by [abort(code)] *)
| KeyError (key : string)
| TypeError
| AttributeError
| IndexError
| UnboundLocalError (name : string)
| StoreError.                       (* raised by the record store *)

Inductive outcome (A : Type) :=
| Return (a : A)
| Raise (e : exn).
Arguments Return {A} a.
Arguments Raise {A} e.

(** ** The record store

    [models.py], which declares [Question], [Category] and their [query],
    [format], [insert] and [delete], is not among the sources. The store
    is modelled from section 3 of the specification, which gives the
    fields of both entities, and from the collaborator contract of its
    section 6: ordered scans, filtered scans, lookup by identifier,
    insertion returning the assigned identifier, and deletion. *)

Module Question.
(** Modelled from the spec: the [Question] entity of [models.py]. Its
    category reference is a text column: the views filter it with
    [str(id)] and the tests create it as ['1']. *)
Record t := {
  id : Z;
  question : string;
  answer : string;
  category : string;
  difficulty : Z
}.

(** Modelled from the spec: [Question.format] of [models.py], the
    dictionary of the five fields that is sent to the client. *)
Definition format (q : t) : gmap string value :=
  {[ "id" := VInt (id q);
     "question" := VStr (question q);
     "answer" := VStr (answer q);
     "category" := VStr (category q);
     "difficulty" := VInt (difficulty q) ]}.
End Question.

Module Category.
(** Modelled from the spec: the [Category] entity of [models.py]. *)
Record t := {
  id : Z;
  type : string
}.
End Category.

(** Modelled from the spec: the tables of the store, in the order of
    creation, and the next identifier the store will assign; identifiers
    are not reused after a deletion. *)
Record store := {
  questions : list Question.t;
  categories : list Category.t;
  next_id : Z
}.

(** The world a request runs in: the database, the random generator (the
    raw value of every future draw) and the number of draws made so far. *)
Record world := {
  db : store;
  entropy : nat -> nat;
  draws : nat
}.

Definition set_db (s : store) (w : world) : world :=
  {| db := s; entropy := entropy w; draws := draws w |}.

Definition M (A : Type) : Type := world -> outcome A * world.

Definition ret {A} (a : A) : M A := fun w => (Return a, w).
Definition raise {A} (e : exn) : M A := fun w => (Raise e, w).
Definition bind {A B} (m : M A) (k : A -> M B) : M B :=
  fun w =>
    match m w with
    | (Return a, w') => k a w'
    | (Raise e, w') => (Raise e, w')
    end.

Notation "'let*' x ':=' m 'in' k" := (bind m (fun x => k))
  (at level 10, x pattern, m at level 100, k at level 200).

(** [try: body except: handler] with a bare [except], which catches every
    exception, the [HTTPException] raised by [abort] included. *)
Definition try_except {A} (body handler : M A) : M A :=
  fun w =>
    match body w with
    | (Return a, w') => (Return a, w')
    | (Raise _, w') => handler w'
    end.

(** [abort(code)] *)
Definition abort {A} (code : Z) : M A := raise (HTTPException code).

(** Modelled from the spec: [Question.query.all()] of [models.py], the
    ordered scan. *)
Definition Question_query_all : M (list Question.t) :=
  fun w => (Return (questions (db w)), w).

(** Modelled from the spec: [Question.query.get(id)] of [models.py], the
    lookup by identifier. *)
Definition Question_query_get (id : Z) : M (option Question.t) :=
  fun w => (Return (find (fun q => Question.id q =? id) (questions (db w))), w).

(** Modelled from the spec: [question.delete()] of [models.py]. *)
Definition Question_delete (q : Question.t) : M unit :=
  fun w =>
    let s := db w in
    (Return tt,
     set_db {| questions := filter (fun r => Question.id r ≠ Question.id q) (questions s);
               categories := categories s;
               next_id := next_id s |} w).

(** Modelled from the spec: [Category.query.all()] of [models.py]. *)
Definition Category_query_all : M (list Category.t) :=
  fun w => (Return (categories (db w)), w).

(** Modelled from the spec: [Category.query.filter_by(id=id).one_or_none()]
    of [models.py]; more than one row is an error of the store. *)
Definition Category_query_one_or_none (id : Z) : M (option Category.t) :=
  fun w =>
    match filter (fun c => Category.id c = id) (categories (db w)) with
    | [] => (Return None, w)
    | [c] => (Return (Some c), w)
    | _ => (Raise StoreError, w)
    end.

(** Modelled from the spec: a scalar bound to a text column of the store
    is compared, and stored, as text. *)
Definition as_text (v : value) : option string :=
  match v with
  | VStr s => Some s
  | VInt n => Some (str n)
  | VNone => None
  end.

(** Modelled from the spec: [Question.query.filter_by(category=v).all()]
    of [models.py]; no row has a null category reference. *)
Definition Question_query_filter_by_category (v : value) : M (list Question.t) :=
  fun w =>
    match as_text v with
    | Some s => (Return (filter (fun q => Question.category q = s) (questions (db w))), w)
    | None => (Return [], w)
    end.

(** ** The request *)

Inductive Method := GET | HEAD | POST | PUT | DELETE | PATCH | OPTIONS.

Global Instance Method_eq_dec : EqDecision Method.
Proof. solve_decision. Defined.

(** A JSON body, as the views read it: a dictionary of scalars, together
    with the two structured entries of a quiz request. *)
Record Body := {
  entries : gmap string value;
  quiz_category : option (gmap string value);   (* the object under "quiz_category" *)
  previous_questions : option (list value)      (* the array under "previous_questions" *)
}.

Record Request := {
  method : Method;
  path : list string;      (* the segments between the slashes *)
  page_arg : option Z;     (* [?page=], when present and numeric *)
  json : option Body       (* the parsed body, when there is one *)
}.

(** [request.args.get('page', 1, type=int)] *)
Definition args_get_page (request : Request) : Z :=
  match page_arg request with
  | Some p => p
  | None => 1
  end.

(** ** Pagination *)

(** The bound of a slice, as Python adjusts it to a sequence of length
    [len]: a negative index counts from the end, and the result is clipped
    to the sequence. *)
Definition adjust_index (len i : Z) : Z :=
  if i <? 0 then Z.max 0 (i + len) else Z.min i len.

(** [l[start:stop]] *)
Definition slice {A} (l : list A) (start stop : Z) : list A :=
  let len := Z.of_nat (length l) in
  let lo := adjust_index len start in
  let hi := adjust_index len stop in
  take (Z.to_nat (hi - lo)) (drop (Z.to_nat lo) l).

Definition QUESTIONS_PER_PAGE : Z := 10.

Definition paginate (request : Request) (selections : list Question.t)
  : list (gmap string value) :=
  let page := args_get_page request in
  let start := (page - 1) * QUESTIONS_PER_PAGE in
  let end_ := start + QUESTIONS_PER_PAGE in
  let questions := map Question.format selections in
  let current_questions := slice questions start end_ in
  current_questions.

(** ** Case-insensitive pattern matching ([ILIKE])

    The column operator [ilike] of the store compares a text with a
    pattern without regard to case. In a pattern a percent sign stands for
    any run of characters, an underscore for any one character, and a
    backslash makes the character after it stand for itself. *)

Inductive like_token :=
| AnyString
| AnyChar
| Literal (c : ascii).

Fixpoint like_pattern (p : list ascii) : list like_token :=
  match p with
  | [] => []
  | c :: p' =>
      if Ascii.eqb c "%" then AnyString :: like_pattern p'
      else if Ascii.eqb c "_" then AnyChar :: like_pattern p'
      else if Ascii.eqb c "\" then
        match p' with
        | [] => [Literal c]
        | d :: p'' => Literal d :: like_pattern p''
        end
      else Literal c :: like_pattern p'
  end.

(** [c.lower()] on an ASCII character *)
Definition lower (c : ascii) : ascii :=
  let n := nat_of_ascii c in
  if ((65 <=? n) && (n <=? 90))%nat then ascii_of_nat (n + 32) else c.

Fixpoint like_match (p : list like_token) (s : list ascii) : bool :=
  match p with
  | [] => match s with [] => true | _ :: _ => false end
  | AnyString :: p' =>
      (fix skip (s : list ascii) : bool :=
         like_match p' s || match s with [] => false | _ :: s' => skip s' end) s
  | AnyChar :: p' =>
      match s with [] => false | _ :: s' => like_match p' s' end
  | Literal c :: p' =>
      match s with
      | [] => false
      | d :: s' => Ascii.eqb (lower c) (lower d) && like_match p' s'
      end
  end.

Definition ilike (text pattern : string) : bool :=
  like_match (like_pattern (list_ascii_of_string pattern)) (list_ascii_of_string text).

(** Modelled from the spec:
    [Question.query.filter(Question.question.ilike(pattern)).all()] of
    [models.py]. *)
Definition Question_query_filter_ilike (pattern : string) : M (list Question.t) :=
  fun w => (Return (filter (fun q => ilike (Question.question q) pattern = true)
                           (questions (db w))), w).

(** ** Python operations on values *)

(** Truth value of a scalar, as [if v:] tests it. *)
Definition truthy (v : value) : bool :=
  match v with
  | VNone => false
  | VInt n => negb (n =? 0)
  | VStr s => negb (String.eqb s "")
  end.

(** ['{}'.format(v)] *)
Definition format_value (v : value) : string :=
  match v with
  | VNone => "None"
  | VInt n => str n
  | VStr s => s
  end.

(** [d[key]] *)
Definition getitem {V} (d : gmap string V) (key : string) : M V :=
  match d !! key with
  | Some v => ret v
  | None => raise (KeyError key)
  end.

(** [request.get_json()]. A body that does not parse is refused by the
    framework with a 400 and is not a [Request] here. *)
Definition get_json (request : Request) : M (option Body) :=
  ret (json request).

(** [body[key]] on the parsed body, which is [None] when there is none. *)
Definition body_getitem (body : option Body) (key : string) : M value :=
  match body with
  | None => raise TypeError
  | Some b => getitem (entries b) key
  end.

(** [body.get(key)] for a scalar entry; a missing key gives [None]. *)
Definition body_get (body : option Body) (key : string) : M value :=
  match body with
  | None => raise AttributeError
  | Some b => ret (default VNone (entries b !! key))
  end.

(** [body.get('quiz_category')] and [body.get('previous_questions')] *)
Definition body_get_quiz_category (body : option Body) : M (option (gmap string value)) :=
  match body with
  | None => raise AttributeError
  | Some b => ret (quiz_category b)
  end.

Definition body_get_previous_questions (body : option Body) : M (option (list value)) :=
  match body with
  | None => raise AttributeError
  | Some b => ret (previous_questions b)
  end.

(** [category[key]] on the category object, [None] when the body has none. *)
Definition object_getitem (o : option (gmap string value)) (key : string) : M value :=
  match o with
  | None => raise TypeError
  | Some d => getitem d key
  end.

(** [x in l] and [len(l)] on the array of served identifiers. *)
Definition contains (l : option (list value)) (x : value) : M bool :=
  match l with
  | None => raise TypeError
  | Some l => ret (bool_decide (x ∈ l))
  end.

Definition len (l : option (list value)) : M nat :=
  match l with
  | None => raise TypeError
  | Some l => ret (length l)
  end.

(** The world after one more draw. *)
Definition tick (w : world) : world :=
  {| db := db w; entropy := entropy w; draws := S (draws w) |}.

(** [random.choice(seq)]: an [IndexError] on the empty sequence, otherwise
    the element at the position the generator draws. *)
Definition random_choice {A} (seq : list A) : M A :=
  fun w =>
    match seq with
    | [] => (Raise IndexError, w)
    | x :: _ =>
        (Return (nth (entropy w (draws w) mod length seq)%nat seq x), tick w)
    end.

(** ** The views *)

(** What [jsonify] is given on success; every such dictionary also holds
    ['success': True]. *)
Inductive payload :=
| CategoriesPayload (categories : gmap Z string)
| QuestionsPayload (questions : list (gmap string value)) (total_questions : nat)
                   (categories : gmap Z string)
| DeletedPayload (deleted : Z)
| CreatedPayload (created : Z) (questions : list (gmap string value))
                 (total_questions : nat)
| SearchPayload (questions : list (gmap string value)) (total_questions : nat)
| CategoryQuestionsPayload (questions : list (gmap string value))
                           (total_questions : nat) (current_category : string)
| QuizQuestionPayload (question : gmap string value)
| GameOverPayload.                    (* ['message': "game over"] *)

(** The loop [for category in all_categories: categories_dict[category.id] = category.type] *)
Definition categories_dict_of (all_categories : list Category.t) : gmap Z string :=
  fold_left (fun d category => <[Category.id category := Category.type category]> d)
            all_categories ∅.

Definition show_categories : M payload :=
  let* all_categories := Category_query_all in
  let categories_dict := categories_dict_of all_categories in
  if (length all_categories =? 0)%nat then abort 404
  else ret (CategoriesPayload categories_dict).

Definition show_questions (request : Request) : M payload :=
  let* all_questions := Question_query_all in
  let total_questions := length all_questions in
  let paginated_questions := paginate request all_questions in
  let* all_categories := Category_query_all in
  let categories_dict := categories_dict_of all_categories in
  if (length paginated_questions =? 0)%nat then abort 404
  else ret (QuestionsPayload paginated_questions total_questions categories_dict).

Definition delete_question (id : Z) : M payload :=
  try_except
    (let* question := Question_query_get id in
     match question with
     | None => abort 404
     | Some question =>
         let* _ := Question_delete question in
         ret (DeletedPayload id)
     end)
    (abort 422).

Definition search_questions (request : Request) : M payload :=
  let* body := get_json request in
  let* found := body_get body "searchTerm" in
  (* [search_term] is bound only when the entry is truthy *)
  let* search_term :=
    (if truthy found then body_get body "searchTerm"
     else raise (UnboundLocalError "search_term")) in
  let* questions :=
    Question_query_filter_ilike ("%" ++ format_value search_term ++ "%") in
  match questions with
  | [] => abort 404
  | _ :: _ =>
      let results := paginate request questions in
      ret (SearchPayload results (length questions))
  end.

Definition show_questions_by_category (request : Request) (id : Z) : M payload :=
  let* category := Category_query_one_or_none id in
  match category with
  | Some category =>
      let* all_questions := Question_query_filter_by_category (VStr (str id)) in
      let paginated_questions := paginate request all_questions in
      ret (CategoryQuestionsPayload paginated_questions (length all_questions)
                                    (Category.type category))
  | None => abort 404
  end.

(** *** Loops

    One pass through the body of a [while] loop either reaches the end of
    the body, and the condition is tested again, or executes a [return]. *)

Inductive pass (S R : Type) :=
| Continue (s : S)
| ReturnFrom (r : R).
Arguments Continue {S R} s.
Arguments ReturnFrom {S R} r.

(** A computation with a budget of loop passes: [None] when the budget is
    spent before the computation ends. *)
Definition Mfuel (A : Type) : Type := world -> option (outcome A * world).

Definition then_ {A B} (m : M A) (k : A -> Mfuel B) : Mfuel B :=
  fun w =>
    match m w with
    | (Return a, w') => k a w'
    | (Raise e, w') => Some (Raise e, w')
    end.

Definition finish {A B} (m : Mfuel A) (k : A -> B) : Mfuel B :=
  fun w =>
    match m w with
    | Some (Return a, w') => Some (Return (k a), w')
    | Some (Raise e, w') => Some (Raise e, w')
    | None => None
    end.

(** [while cond(s): s = body(s)] *)
Fixpoint while {S R} (fuel : nat) (cond : S -> bool) (body : S -> M (pass S R))
    (s : S) : Mfuel (pass S R) :=
  fun w =>
    if cond s then
      match fuel with
      | O => None
      | Datatypes.S fuel' =>
          match body s w with
          | (Return (Continue s'), w') => while fuel' cond body s' w'
          | (Return (ReturnFrom r), w') => Some (Return (ReturnFrom r), w')
          | (Raise e, w') => Some (Raise e, w')
          end
      end
    else Some (Return (Continue s), w).

(** *** The quiz *)

(** The local variables of [get_quiz_question] that the loop reads and
    writes. *)
Record quiz_locals := {
  next_question : gmap string value;
  is_question_old : bool
}.

(** The body of [while is_question_old:]. *)
Definition quiz_loop_body (questions : list Question.t)
    (previous_questions : option (list value)) (s : quiz_locals)
  : M (pass quiz_locals payload) :=
  let* chosen := random_choice questions in
  let next_question := Question.format chosen in
  let* served := len previous_questions in
  if (served =? length questions)%nat then ret (ReturnFrom GameOverPayload)
  else ret (Continue {| next_question := next_question;
                        is_question_old := is_question_old s |}).

(** The end of the view: what the loop leaves is turned into a payload. *)
Definition quiz_result (end_of_loop : pass quiz_locals payload) : payload :=
  match end_of_loop with
  | ReturnFrom p => p
  | Continue locals => QuizQuestionPayload (next_question locals)
  end.

Definition get_quiz_question (fuel : nat) (request : Request) : Mfuel payload :=
  then_
    (let* body := get_json request in
     let* category := body_get_quiz_category body in
     let* previous_questions := body_get_previous_questions body in
     let* category_id := object_getitem category "id" in
     let* questions :=
       (if bool_decide (category_id = VInt 0) then Question_query_all
        else let* category_id := object_getitem category "id" in
             Question_query_filter_by_category category_id) in
     let* chosen := random_choice questions in
     let next_question := Question.format chosen in
     let is_question_old := false in
     let* chosen_id := getitem next_question "id" in
     let* old := contains previous_questions chosen_id in
     let is_question_old := if old then true else is_question_old in
     ret (questions, previous_questions,
          {| next_question := next_question; is_question_old := is_question_old |}))
    (fun '(questions, previous_questions, locals) =>
       finish
         (while fuel is_question_old (quiz_loop_body questions previous_questions) locals)
         quiz_result).

(** *** Creation *)

(** Modelled from the spec: a scalar bound to an integer column of the
    store. *)
Definition as_int (v : value) : option Z :=
  match v with
  | VInt n => Some n
  | VStr s => Z.of_int <$> NilZero.int_of_string s
  | VNone => None
  end.

Section Application.

(** Modelled from the spec: the validation the store applies to a new
    row ("any field failing store-level validation"); the schema is not
    among the sources. *)
Variable accepts : Question.t -> bool.

(** Modelled from the spec: [Question(question=.., answer=..,
    category=.., difficulty=..).insert()] followed by reading
    [question.id]. The store assigns the next unused identifier and
    appends the row, or raises when a column cannot hold the value given
    or the row fails validation. *)
Definition Question_insert (question answer category difficulty : value) : M Z :=
  fun w =>
    let s := db w in
    match as_text question, as_text answer, as_text category, as_int difficulty with
    | Some q, Some a, Some c, Some d =>
        let row := {| Question.id := next_id s; Question.question := q;
                      Question.answer := a; Question.category := c;
                      Question.difficulty := d |} in
        if accepts row then
          (Return (next_id s),
           set_db {| questions := questions s ++ [row];
                     categories := categories s;
                     next_id := next_id s + 1 |} w)
        else (Raise StoreError, w)
    | _, _, _, _ => (Raise StoreError, w)
    end.

Definition create_question (request : Request) : M payload :=
  let* question_data := get_json request in
  let* the_question := body_getitem question_data "question" in
  let* the_answer := body_getitem question_data "answer" in
  let* the_category := body_getitem question_data "category" in
  let* the_difficulty := body_getitem question_data "difficulty" in
  let* created :=
    Question_insert the_question the_answer the_category the_difficulty in
  let* all_questions := Question_query_all in
  let paginated_questions := paginate request all_questions in
  ret (CreatedPayload created paginated_questions (length all_questions)).

(** ** The URL map and the error handlers *)

Inductive segment :=
| Lit (s : string)
| IntArg.                           (* [<int:id>] *)

Inductive endpoint :=
| show_categories_view
| show_questions_view
| delete_question_view
| create_question_view
| search_questions_view
| show_questions_by_category_view
| get_quiz_question_view.

Record rule := {
  pattern : list segment;
  methods : list Method;
  endpoint_of : endpoint
}.

(** The [@app.route] decorators, in the order of the source. *)
Definition url_map : list rule :=
  [ {| pattern := [Lit "categories"]; methods := [GET];
       endpoint_of := show_categories_view |};
    {| pattern := [Lit "questions"]; methods := [GET];
       endpoint_of := show_questions_view |};
    {| pattern := [Lit "questions"; IntArg]; methods := [GET; DELETE];
       endpoint_of := delete_question_view |};
    {| pattern := [Lit "questions"]; methods := [POST];
       endpoint_of := create_question_view |};
    {| pattern := [Lit "questions"; Lit "search"]; methods := [GET; POST];
       endpoint_of := search_questions_view |};
    {| pattern := [Lit "categories"; IntArg; Lit "questions"]; methods := [GET];
       endpoint_of := show_questions_by_category_view |};
    {| pattern := [Lit "quizzes"]; methods := [POST];
       endpoint_of := get_quiz_question_view |} ].

(** The integer converter accepts a run of decimal digits. *)
Definition int_converter (s : string) : option Z :=
  (fun d => Z.of_N (N.of_uint d)) <$> NilZero.uint_of_string s.

(** The arguments a path gives to a rule, when the rule matches it. *)
Fixpoint match_path (pat : list segment) (p : list string) : option (list Z) :=
  match pat, p with
  | [], [] => Some []
  | Lit s :: pat', x :: p' =>
      if String.eqb s x then match_path pat' p' else None
  | IntArg :: pat', x :: p' =>
      match int_converter x, match_path pat' p' with
      | Some n, Some args => Some (n :: args)
      | _, _ => None
      end
  | _, _ => None
  end.

(** A rule for [GET] also serves [HEAD]. *)
Definition allows (r : rule) (m : Method) : bool :=
  bool_decide (m ∈ methods r)
  || (bool_decide (m = HEAD) && bool_decide (GET ∈ methods r)).

Definition lift {A} (m : M A) : Mfuel A := fun w => Some (m w).

Definition call_view (fuel : nat) (e : endpoint) (args : list Z) (request : Request)
  : Mfuel payload :=
  match e, args with
  | show_categories_view, [] => lift show_categories
  | show_questions_view, [] => lift (show_questions request)
  | delete_question_view, [id] => lift (delete_question id)
  | create_question_view, [] => lift (create_question request)
  | search_questions_view, [] => lift (search_questions request)
  | show_questions_by_category_view, [id] =>
      lift (show_questions_by_category request id)
  | get_quiz_question_view, [] => get_quiz_question fuel request
  | _, _ => lift (raise TypeError)
  end.

Inductive content :=
| Success (p : payload)
| Failure (error : Z) (message : string)
| Plain.                            (* a page of the framework's own *)

Record Response := {
  status : Z;
  data : content
}.

(** The [@app.errorhandler] functions. The handler for 400 gives no
    status with its body, so the response goes out as 200. An exception
    that is not an [HTTPException] is handled as a 500. *)
Definition handle_exception (e : exn) : Response :=
  let code := match e with HTTPException code => code | _ => 500 end in
  if code =? 400 then
    {| status := 200; data := Failure 400 "Sorry, bad request" |}
  else if code =? 404 then
    {| status := 404; data := Failure 404 "Sorry, Resource not found" |}
  else if code =? 422 then
    {| status := 422;
       data := Failure 422 "Sorry, failed to process request. Check your syntax." |}
  else if code =? 500 then
    {| status := 500;
       data := Failure 500 "Sorry, the server is down. Please try again later." |}
  else {| status := code; data := Plain |}.

Definition make_response (o : outcome payload) : Response :=
  match o with
  | Return p => {| status := 200; data := Success p |}
  | Raise e => handle_exception e
  end.

(** The rules whose pattern matches the path, with the arguments. *)
Definition matching_rules (p : list string) : list (rule * list Z) :=
  omap (fun r => (fun args => (r, args)) <$> match_path (pattern r) p) url_map.

(** One request: routing, the view, and the response. *)
Definition full_dispatch_request (fuel : nat) (request : Request) (w : world)
  : option (Response * world) :=
  match matching_rules (path request) with
  | [] => Some (handle_exception (HTTPException 404), w)
  | candidates =>
      if bool_decide (method request = OPTIONS) then
        Some ({| status := 200; data := Plain |}, w)
      else
        match find (fun '(r, _) => allows r (method request)) candidates with
        | None => Some (handle_exception (HTTPException 405), w)
        | Some (r, args) =>
            match call_view fuel (endpoint_of r) args request w with
            | Some (o, w') => Some (make_response o, w')
            | None => None
            end
        end
  end.

End Application.

(** ** Notions the properties are stated with *)

(** The candidate pool of a quiz: every question when the category
    identifier is 0, the questions of that category otherwise. *)
Definition candidates (s : store) (category_id : value) : list Question.t :=
  if bool_decide (category_id = VInt 0) then questions s
  else match as_text category_id with
       | Some c => filter (fun q => Question.category q = c) (questions s)
       | None => []
       end.

(** A request that carries a category object with an identifier and an
    array of served identifiers. *)
Definition quiz_input (request : Request) (category_id : value) (served : list value)
  : Prop :=
  exists b category,
    json request = Some b
    /\ quiz_category b = Some category
    /\ category !! "id" = Some category_id
    /\ previous_questions b = Some served.

(** The element [random.choice] returns in world [w]. *)
Definition drawn {A} (w : world) (x : A) (seq : list A) : A :=
  nth (entropy w (draws w) mod length (x :: seq))%nat (x :: seq) x.

(** [t in s] on sequences of characters. *)
Fixpoint is_prefix (t s : list ascii) : bool :=
  match t, s with
  | [], _ => true
  | _ :: _, [] => false
  | c :: t', d :: s' => Ascii.eqb c d && is_prefix t' s'
  end.

Fixpoint is_substring (t s : list ascii) : bool :=
  is_prefix t s || match s with [] => false | _ :: s' => is_substring t s' end.

(** [term.lower() in text.lower()], the containment the specification
    asks of a search. *)
Definition contains_term (term text : string) : bool :=
  is_substring (lower <$> list_ascii_of_string term)
               (lower <$> list_ascii_of_string text).

(** A character that stands for itself in a pattern. *)
Definition plain (c : ascii) : bool :=
  negb (Ascii.eqb c "%") && negb (Ascii.eqb c "_") && negb (Ascii.eqb c "\").

(** A pattern token with its letter in lower case. *)
Definition fold_token (t : like_token) : like_token :=
  match t with
  | Literal c => Literal (lower c)
  | AnyString => AnyString
  | AnyChar => AnyChar
  end.

(** A computation that leaves the database as it found it, however it
    ends. *)
Definition keeps_db {A} (m : M A) : Prop :=
  forall w, db (m w).2 = db w.

Definition keeps_db_fuel {A} (m : Mfuel A) : Prop :=
  forall w o w', m w = Some (o, w') -> db w' = db w.




(** The identifiers of the stored questions are distinct and below the
    next identifier the store will assign. *)
Definition store_ok (s : store) : Prop :=
  NoDup (Question.id <$> questions s)
  /\ forall q, q ∈ questions s -> Question.id q < next_id s.

(** ** Stores and requests of the scenarios *)

Definition trivia (id : Z) (category : string) : Question.t :=
  {| Question.id := id; Question.question := "Question " ++ str id;
     Question.answer := "Answer " ++ str id; Question.category := category;
     Question.difficulty := 1 |}.

(** A store whose category 5 holds the questions 2, 3 and 6, and whose
    category 1 holds question 7; category 4 is empty. *)
Definition trivia_store : store :=
  {| questions := [trivia 2 "5"; trivia 3 "5"; trivia 6 "5"; trivia 7 "1"];
     categories := [ {| Category.id := 1; Category.type := "Science" |};
                     {| Category.id := 4; Category.type := "History" |};
                     {| Category.id := 5; Category.type := "Entertainment" |} ];
     next_id := 8 |}.

Definition trivia_world (rng : nat -> nat) : world :=
  {| db := trivia_store; entropy := rng; draws := 0 |}.

(** [POST /quizzes] with [{quiz_category: {id, type}, previous_questions}]. *)
Definition quiz_request (category_id : Z) (type : string) (served : list Z) : Request :=
  {| method := POST; path := ["quizzes"]; page_arg := None;
     json := Some {| entries := ∅;
                     quiz_category := Some {[ "id" := VInt category_id;
                                              "type" := VStr type ]};
                     previous_questions := Some (VInt <$> served) |} |}.

(** [POST /questions/search] with [{searchTerm}]. *)
Definition search_request (term : string) : Request :=
  {| method := POST; path := ["questions"; "search"]; page_arg := None;
     json := Some {| entries := {[ "searchTerm" := VStr term ]};
                     quiz_category := None; previous_questions := None |} |}.

(** The body that [create_question_failed_test] posts: the answer is the
    empty string. *)
Definition bad_question : Request :=
  {| method := POST; path := ["questions"]; page_arg := None;
     json := Some {| entries := {[ "question" := VStr "How many letters are in the alphabet?";
                                   "category" := VStr "1";
                                   "answer" := VStr "";
                                   "difficulty" := VInt 1 ]};
                     quiz_category := None; previous_questions := None |} |}.

(** A body without an answer. *)
Definition question_without_answer : Request :=
  {| method := POST; path := ["questions"]; page_arg := None;
     json := Some {| entries := {[ "question" := VStr "How many letters are in the alphabet?";
                                   "category" := VStr "1";
                                   "difficulty" := VInt 1 ]};
                     quiz_category := None; previous_questions := None |} |}.

(** A store that refuses an empty answer. *)
Definition answer_required (q : Question.t) : bool :=
  negb (String.eqb (Question.answer q) "").

(** * Properties *)

(** ** Pagination *)

Section Slices.
Context {A : Type}.
Implicit Types l : list A.

Lemma take_min_length l (n : nat) : take (n `min` length l) l = take n l.
Proof.
  destruct (decide (n ≤ length l)%nat) as [Hle | Hgt].
  - by rewrite Nat.min_l.
  - rewrite Nat.min_r by lia. rewrite !take_ge; [done | lia | lia].
Qed.

(** A slice whose bounds are not negative is a [take] of a [drop]. *)
Lemma slice_nonneg l (start size : Z) :
  0 <= start -> 0 <= size ->
  slice l start (start + size) = take (Z.to_nat size) (drop (Z.to_nat start) l).
Proof.
  intros Hstart Hsize. unfold slice, adjust_index.
  destruct (Z.ltb_spec start 0) as [? | _]; [lia |].
  destruct (Z.ltb_spec (start + size) 0) as [? | _]; [lia |].
  set (len := Z.of_nat (length l)).
  destruct (decide (start <= len)) as [Hin | Hout].
  - rewrite (Z.min_l start len) by lia.
    rewrite <- (take_min_length (drop _ l) (Z.to_nat size)).
    f_equal. rewrite length_drop. lia.
  - rewrite (Z.min_r start len), (Z.min_r (start + size) len) by lia.
    rewrite Z.sub_diag. rewrite !drop_ge; [by destruct (Z.to_nat size) | lia | lia].
Qed.
End Slices.

(** C7. Pagination bounds. For a list of [N] items and a page number
    [p >= 1], [paginate] returns the window of the formatted items that
    starts at index [10 * (p - 1)] and is ten items long, cut off at the end
    of the list; it therefore has [min 10 (max 0 (N - 10 * (p - 1)))] items,
    and is empty when [10 * (p - 1) >= N]. Of twelve items, page 2 holds
    the eleventh and the twelfth. *)
Theorem paginate_bounds (request : Request) (items : list Question.t) (p : Z) :
  args_get_page request = p ->
  1 <= p ->
  let N := Z.of_nat (length items) in
  paginate request items
    = take 10 (drop (Z.to_nat (10 * (p - 1))) (map Question.format items))
  /\ Z.of_nat (length (paginate request items)) = Z.min 10 (Z.max 0 (N - 10 * (p - 1)))
  /\ (N <= 10 * (p - 1) -> paginate request items = [])
  /\ (N = 12 -> p = 2 ->
      paginate request items = map Question.format (drop 10 items)).
Proof.
  intros Hpage Hp N.
  assert (Hwin : paginate request items
                 = take 10 (drop (Z.to_nat (10 * (p - 1))) (map Question.format items))).
  { unfold paginate, QUESTIONS_PER_PAGE. rewrite Hpage.
    rewrite slice_nonneg by lia. do 2 f_equal. lia. }
  assert (Hlen : Z.of_nat (length (paginate request items))
                 = Z.min 10 (Z.max 0 (N - 10 * (p - 1)))).
  { rewrite Hwin, length_take, length_drop, length_map. subst N. lia. }
  repeat split; try assumption.
  - intros Hout. apply nil_length_inv. lia.
  - intros HN ->. rewrite Hwin. change (Z.to_nat (10 * (2 - 1))) with 10%nat.
    rewrite skipn_map. apply take_ge. rewrite length_map, length_drop. lia.
Qed.

(** The scenario of the specification: twelve questions, page 2. *)
Lemma paginate_bounds_witness :
  let request := {| method := GET; path := ["questions"]; page_arg := Some 2;
                    json := None |} in
  let items := map (fun i => {| Question.id := i; Question.question := "q";
                                Question.answer := "a"; Question.category := "1";
                                Question.difficulty := 1 |})
                   [1; 2; 3; 4; 5; 6; 7; 8; 9; 10; 11; 12] in
  length (paginate request items) = 2%nat
  /\ paginate request items = map Question.format (drop 10 items).
Proof.
  intros request items.
  destruct (paginate_bounds request items 2) as (_ & Hlen & _ & Hscenario);
    [reflexivity | lia |].
  split.
  - apply Nat2Z.inj. rewrite Hlen. reflexivity.
  - apply Hscenario; reflexivity.
Defined.

(** ** Deletion *)

Lemma find_none_filter_ne (id : Z) (l : list Question.t) :
  find (fun q => Question.id q =? id) l = None ->
  filter (fun r => Question.id r ≠ id) l = l.
Proof.
  induction l as [| q l IH]; [done |]. cbn [find].
  destruct (Z.eqb_spec (Question.id q) id) as [Heq | Hne]; [done |].
  intros Hnone. rewrite filter_cons_True by done. by rewrite IH.
Qed.

(** Whatever the identifier, the store holds afterwards exactly the
    questions that do not bear it. *)
Lemma delete_question_store (id : Z) (w : world) :
  questions (db (delete_question id w).2)
  = filter (fun r => Question.id r ≠ id) (questions (db w)).
Proof.
  unfold delete_question, try_except, bind, Question_query_get.
  destruct (find _ _) as [q |] eqn:Hfind; cbn.
  - apply find_some in Hfind as [_ Hid]. apply Z.eqb_eq in Hid. by rewrite Hid.
  - by rewrite find_none_filter_ne.
Qed.

(** C5. Deletion of an identifier that no question bears: the view calls
    [abort(404)] inside its [try] block, the bare [except] catches the
    exception that [abort] raises, and the request ends in [abort(422)]
    with the store untouched. Deletion of an identifier that a question
    bears removes the question and returns [{success: true, deleted: id}]. *)
Theorem delete_question_outcome (id : Z) (w : world) :
  match find (fun q => Question.id q =? id) (questions (db w)) with
  | None =>
      delete_question id w = (Raise (HTTPException 422), w)
      /\ status (make_response (delete_question id w).1) = 422
  | Some q =>
      (delete_question id w).1 = Return (DeletedPayload id)
      /\ questions (db (delete_question id w).2)
         = filter (fun r => Question.id r ≠ id) (questions (db w))
      /\ (forall r, r ∈ questions (db (delete_question id w).2) -> Question.id r ≠ id)
  end.
Proof.
  destruct (find _ _) as [q |] eqn:Hfind.
  - split; [| split].
    + unfold delete_question, try_except, bind, Question_query_get.
      by rewrite Hfind.
    + apply delete_question_store.
    + intros r. rewrite delete_question_store.
      intros Hin. by apply list_elem_of_filter in Hin as [? _].
  - assert (Hrun : delete_question id w = (Raise (HTTPException 422), w)).
    { unfold delete_question, try_except, bind, Question_query_get.
      by rewrite Hfind. }
    split; [done |]. by rewrite Hrun.
Qed.

(** A request to delete question 1000 from a store that holds questions 1
    and 2 is answered with status 422 and error code 422. *)
Example delete_unknown_question_is_422 :
  let s := {| questions := [ {| Question.id := 1; Question.question := "Who?";
                                Question.answer := "Me"; Question.category := "1";
                                Question.difficulty := 1 |};
                             {| Question.id := 2; Question.question := "Where?";
                                Question.answer := "Here"; Question.category := "1";
                                Question.difficulty := 2 |} ];
              categories := [ {| Category.id := 1; Category.type := "Science" |} ];
              next_id := 3 |} in
  let w := {| db := s; entropy := fun _ => 0%nat; draws := 0 |} in
  let request := {| method := DELETE; path := ["questions"; "1000"];
                    page_arg := None; json := None |} in
  full_dispatch_request (fun _ => true) 0 request w
  = Some ({| status := 422;
             data := Failure 422 "Sorry, failed to process request. Check your syntax." |},
          w).
Proof. reflexivity. Qed.

(** ** Routing of [/questions/<int:id>] *)

Lemma int_converter_not_search : int_converter "search" = None.
Proof. reflexivity. Qed.

(** The path [/questions/{id}] of a question identifier is read back as
    that identifier. *)
Lemma int_converter_str (id : Z) : 0 <= id -> int_converter (str id) = Some id.
Proof.
  intros Hid. unfold int_converter, str.
  destruct id as [| p | p]; [done | | lia].
  cbn [Z.to_int NilZero.string_of_int].
  rewrite NilZero.usu by apply Unsigned.to_uint_nonnil.
  cbn. unfold N.of_uint. by rewrite DecimalPos.Unsigned.of_to.
Qed.

(** Only the rule of [delete_question] matches a path of the form
    [/questions/<digits>]. *)
Lemma matching_rules_question_id (seg : string) (id : Z) :
  int_converter seg = Some id ->
  matching_rules ["questions"; seg]
  = [({| pattern := [Lit "questions"; IntArg]; methods := [GET; DELETE];
         endpoint_of := delete_question_view |}, [id])].
Proof.
  intros Hid.
  assert (Hsearch : String.eqb "search" seg = false).
  { destruct (String.eqb_spec "search" seg) as [<- | _]; [| done].
    by rewrite int_converter_not_search in Hid. }
  unfold matching_rules, url_map.
  cbn [omap list_omap pattern match_path fmap option_fmap option_map].
  rewrite Hid, Hsearch.
  replace (String.eqb "categories" "questions") with false by reflexivity.
  replace (String.eqb "questions" "questions") with true by reflexivity.
  replace (String.eqb "quizzes" "questions") with false by reflexivity.
  reflexivity.
Qed.

(** C10. The only rule that matches [/questions/{id}] is the rule of
    [delete_question], and it is registered for [GET] and [DELETE]. A
    [GET] request to that path is therefore answered by the deletion view,
    as a [DELETE] request is: both requests get the same response and
    leave the same world behind, in which the store holds no question with
    that identifier. *)
Theorem get_question_runs_deletion (accepts : Question.t -> bool) (fuel : nat)
    (seg : string) (id : Z) (page : option Z) (body : option Body) (w : world) :
  int_converter seg = Some id ->
  let request m := {| method := m; path := ["questions"; seg];
                      page_arg := page; json := body |} in
  (fun found => endpoint_of found.1) <$> matching_rules ["questions"; seg]
  = [delete_question_view]
  /\ full_dispatch_request accepts fuel (request GET) w
     = Some (make_response (delete_question id w).1, (delete_question id w).2)
  /\ full_dispatch_request accepts fuel (request GET) w
     = full_dispatch_request accepts fuel (request DELETE) w
  /\ questions (db (delete_question id w).2)
     = filter (fun r => Question.id r ≠ id) (questions (db w)).
Proof.
  intros Hid request.
  assert (Hroute : forall m, m = GET \/ m = DELETE ->
            full_dispatch_request accepts fuel (request m) w
            = Some (make_response (delete_question id w).1, (delete_question id w).2)).
  { intros m Hm. unfold full_dispatch_request. cbn [path request method].
    rewrite (matching_rules_question_id seg id Hid).
    cbn [find endpoint_of call_view lift].
    assert (Hallowed : allows {| pattern := [Lit "questions"; IntArg];
                                 methods := [GET; DELETE];
                                 endpoint_of := delete_question_view |} m = true)
      by (by destruct Hm as [-> | ->]).
    assert (Hoptions : bool_decide (m = OPTIONS) = false)
      by (by destruct Hm as [-> | ->]).
    rewrite Hallowed, Hoptions. cbn [endpoint_of call_view lift].
    by destruct (delete_question id w). }
  split; [| split; [| split]].
  - by rewrite (matching_rules_question_id seg id Hid).
  - apply Hroute. by left.
  - rewrite !Hroute; auto.
  - apply delete_question_store.
Qed.

(** [GET /questions/2] on a store holding questions 1 and 2 answers
    [{success: true, deleted: 2}] and leaves question 1 alone in the
    store. *)
Lemma get_question_runs_deletion_witness :
  let q1 := {| Question.id := 1; Question.question := "Who?";
               Question.answer := "Me"; Question.category := "1";
               Question.difficulty := 1 |} in
  let q2 := {| Question.id := 2; Question.question := "Where?";
               Question.answer := "Here"; Question.category := "1";
               Question.difficulty := 2 |} in
  let s := {| questions := [q1; q2]; categories := []; next_id := 3 |} in
  let w := {| db := s; entropy := fun _ => 0%nat; draws := 0 |} in
  let request := {| method := GET; path := ["questions"; "2"];
                    page_arg := None; json := None |} in
  full_dispatch_request (fun _ => true) 0 request w
  = Some ({| status := 200; data := Success (DeletedPayload 2) |},
          {| db := {| questions := [q1]; categories := []; next_id := 3 |};
             entropy := fun _ => 0%nat; draws := 0 |}).
Proof.
  intros q1 q2 s w request.
  destruct (get_question_runs_deletion (fun _ => true) 0 "2" 2 None None w)
    as (_ & Hget & _ & _); [reflexivity |].
  exact Hget.
Defined.

(** ** The quiz *)

Lemma random_choice_cons {A} (x : A) (seq : list A) (w : world) :
  random_choice (x :: seq) w = (Return (drawn w x seq), tick w).
Proof. reflexivity. Qed.

Lemma drawn_elem_of {A} (w : world) (x : A) (seq : list A) :
  drawn w x seq ∈ x :: seq.
Proof.
  unfold drawn. apply list_elem_of_In, nth_In, Nat.mod_upper_bound. done.
Qed.

Lemma format_id (q : Question.t) :
  Question.format q !! "id" = Some (VInt (Question.id q)).
Proof. reflexivity. Qed.

(** The view up to its loop: the pool is fetched, one question is drawn,
    and the flag records whether that question was served before. *)
Lemma get_quiz_question_setup (fuel : nat) (request : Request) (w : world)
    (category_id : value) (served : list value) :
  quiz_input request category_id served ->
  get_quiz_question fuel request w
  = match candidates (db w) category_id with
    | [] => Some (Raise IndexError, w)
    | x :: pool =>
        let chosen := drawn w x pool in
        finish
          (while fuel is_question_old (quiz_loop_body (x :: pool) (Some served))
             {| next_question := Question.format chosen;
                is_question_old := bool_decide (VInt (Question.id chosen) ∈ served) |})
          quiz_result (tick w)
    end.
Proof.
  intros (b & category & Hjson & Hcategory & Hid & Hserved).
  unfold get_quiz_question, then_.
  unfold bind at 1. unfold get_json, ret. rewrite Hjson.
  unfold bind at 1. unfold body_get_quiz_category, ret. rewrite Hcategory.
  unfold bind at 1. unfold body_get_previous_questions, ret. rewrite Hserved.
  unfold bind at 1. unfold object_getitem, getitem, ret. rewrite Hid.
  unfold bind at 1.
  assert (Hpool :
    (if bool_decide (category_id = VInt 0) then Question_query_all
     else bind (fun w => (Return category_id, w))
               (fun category_id => Question_query_filter_by_category category_id)) w
    = (Return (candidates (db w) category_id), w)).
  { unfold candidates, bind, Question_query_all, Question_query_filter_by_category.
    destruct (bool_decide _); [done |]. by destruct (as_text category_id). }
  rewrite Hpool.
  destruct (candidates (db w) category_id) as [| x pool]; [done |].
  unfold bind at 1. rewrite random_choice_cons.
  unfold bind at 1. unfold getitem. rewrite format_id. unfold ret.
  unfold bind, contains, ret.
  destruct (bool_decide (VInt _ ∈ served)); reflexivity.
Qed.

(** The view answers only a request of that form; on any other request
    it raises. *)
Lemma get_quiz_question_return_inv (fuel : nat) (request : Request) (w w' : world)
    (p : payload) :
  get_quiz_question fuel request w = Some (Return p, w') ->
  exists category_id served, quiz_input request category_id served.
Proof.
  unfold get_quiz_question, then_. intros Hrun.
  destruct (json request) as [b |] eqn:Hjson;
    [| by unfold bind, get_json, ret in Hrun; rewrite Hjson in Hrun].
  destruct (quiz_category b) as [category |] eqn:Hcategory; cycle 1.
  { unfold bind at 1 in Hrun. unfold get_json, ret in Hrun. rewrite Hjson in Hrun.
    unfold bind, body_get_quiz_category, body_get_previous_questions, ret in Hrun.
    by rewrite Hcategory in Hrun. }
  destruct (category !! "id") as [category_id |] eqn:Hid; cycle 1.
  { unfold bind at 1 in Hrun. unfold get_json, ret in Hrun. rewrite Hjson in Hrun.
    unfold bind, body_get_quiz_category, body_get_previous_questions, ret in Hrun.
    rewrite Hcategory in Hrun. unfold object_getitem, getitem in Hrun.
    by rewrite Hid in Hrun. }
  destruct (previous_questions b) as [served |] eqn:Hserved;
    [by exists category_id, served, b, category |].
  exfalso.
  unfold bind at 1 in Hrun. unfold get_json, ret in Hrun. rewrite Hjson in Hrun.
  unfold bind at 1 in Hrun. unfold body_get_quiz_category, ret in Hrun.
  rewrite Hcategory in Hrun.
  unfold bind at 1 in Hrun. unfold body_get_previous_questions, ret in Hrun.
  rewrite Hserved in Hrun.
  unfold bind at 1 in Hrun. unfold object_getitem, getitem, ret in Hrun.
  rewrite Hid in Hrun.
  unfold bind at 1 in Hrun.
  destruct ((if bool_decide (category_id = VInt 0) then Question_query_all
             else _) w) as [[pool | e] w1] eqn:Hpool; [| done].
  destruct pool as [| x pool]; [done |].
  unfold bind at 1 in Hrun. rewrite random_choice_cons in Hrun.
  unfold bind at 1 in Hrun. unfold getitem in Hrun. rewrite format_id in Hrun.
  by unfold bind, contains, raise, ret in Hrun.
Qed.

(** *** The loop *)

Lemma while_skipped {S R} (fuel : nat) (cond : S -> bool) (body : S -> M (pass S R))
    (s : S) (w : world) :
  cond s = false -> while fuel cond body s w = Some (Return (Continue s), w).
Proof. intros Hcond. destruct fuel; cbn; by rewrite Hcond. Qed.

(** One pass through the body. *)
Lemma quiz_loop_body_cons (x : Question.t) (pool : list Question.t)
    (served : list value) (s : quiz_locals) (w : world) :
  quiz_loop_body (x :: pool) (Some served) s w
  = (Return (if (length served =? length (x :: pool))%nat
             then ReturnFrom GameOverPayload
             else Continue {| next_question := Question.format (drawn w x pool);
                              is_question_old := is_question_old s |}),
     tick w).
Proof.
  unfold quiz_loop_body. unfold bind at 1. rewrite random_choice_cons.
  unfold bind, len, ret. by destruct (_ =? _)%nat.
Qed.

(** When as many identifiers were served as there are candidates, the
    first pass through the loop draws once more and returns the terminal
    payload. *)
Lemma quiz_loop_game_over (fuel : nat) (x : Question.t) (pool : list Question.t)
    (served : list value) (s : quiz_locals) (w : world) :
  is_question_old s = true ->
  length served = length (x :: pool) ->
  while (S fuel) is_question_old (quiz_loop_body (x :: pool) (Some served)) s w
  = Some (Return (ReturnFrom GameOverPayload), tick w).
Proof.
  intros Hold Hlen. cbn [while]. rewrite Hold, quiz_loop_body_cons.
  by rewrite Hlen, Nat.eqb_refl.
Qed.

(** Otherwise a pass draws again and leaves the flag as it was, so the
    loop is entered again with the same flag, and no budget suffices. *)
Lemma quiz_loop_diverges (fuel : nat) (x : Question.t) (pool : list Question.t)
    (served : list value) (s : quiz_locals) (w : world) :
  is_question_old s = true ->
  length served ≠ length (x :: pool) ->
  while fuel is_question_old (quiz_loop_body (x :: pool) (Some served)) s w = None.
Proof.
  intros Hold Hlen. revert s w Hold.
  induction fuel as [| fuel IH]; intros s w Hold; cbn [while]; rewrite Hold; [done |].
  rewrite quiz_loop_body_cons.
  destruct (Nat.eqb_spec (length served) (length (x :: pool))) as [? | _]; [done |].
  by apply IH.
Qed.

(** *** The three ways the view ends on a pool that is not empty *)

Section Quiz_on_a_pool.
Variables (request : Request) (w : world).
Variables (category_id : value) (served : list value).
Variables (x : Question.t) (pool : list Question.t).
Hypothesis Hinput : quiz_input request category_id served.
Hypothesis Hpool : candidates (db w) category_id = x :: pool.

Lemma quiz_fresh_draw (fuel : nat) :
  VInt (Question.id (drawn w x pool)) ∉ served ->
  get_quiz_question fuel request w
  = Some (Return (QuizQuestionPayload (Question.format (drawn w x pool))), tick w).
Proof.
  intros Hfresh. rewrite (get_quiz_question_setup _ _ _ _ _ Hinput), Hpool.
  cbn zeta. unfold finish. rewrite while_skipped; [done |].
  by apply bool_decide_eq_false.
Qed.

Lemma quiz_served_draw_game_over (fuel : nat) :
  VInt (Question.id (drawn w x pool)) ∈ served ->
  length served = length (x :: pool) ->
  get_quiz_question (S fuel) request w
  = Some (Return GameOverPayload, tick (tick w)).
Proof.
  intros Hold Hlen. rewrite (get_quiz_question_setup _ _ _ _ _ Hinput), Hpool.
  cbn zeta. unfold finish. rewrite quiz_loop_game_over; [done | | done].
  by apply bool_decide_eq_true.
Qed.

Lemma quiz_served_draw_diverges (fuel : nat) :
  VInt (Question.id (drawn w x pool)) ∈ served ->
  length served ≠ length (x :: pool) ->
  get_quiz_question fuel request w = None.
Proof.
  intros Hold Hlen. rewrite (get_quiz_question_setup _ _ _ _ _ Hinput), Hpool.
  cbn zeta. unfold finish. rewrite quiz_loop_diverges; [done | | done].
  by apply bool_decide_eq_true.
Qed.
End Quiz_on_a_pool.

(** *** Scenarios *)

Lemma quiz_request_input (category_id : Z) (type : string) (served : list Z) :
  quiz_input (quiz_request category_id type served) (VInt category_id) (VInt <$> served).
Proof. by eexists _, _. Qed.

(** Membership of a served identifier is settled by evaluation. *)
Ltac by_evaluation := apply (bool_decide_unpack _); vm_compute; exact I.

(** C1. Quiz totality fails on the scenario of the specification. With
    the pool 2, 3, 6 and the served identifiers 2 and 6, the view returns
    question 3 only when its first draw lands on question 3. When the
    draw lands on question 2 or on question 6 the flag [is_question_old]
    is set and nothing in the loop clears it, so the loop runs for ever:
    no budget of passes is enough for the view to return. *)
Theorem quiz_retry_never_ends (fuel : nat) (rng : nat -> nat) :
  get_quiz_question fuel (quiz_request 5 "Entertainment" [2; 6]) (trivia_world rng)
  = if (rng 0%nat mod 3 =? 1)%nat
    then Some (Return (QuizQuestionPayload (Question.format (trivia 3 "5"))),
               tick (trivia_world rng))
    else None.
Proof.
  pose proof (quiz_request_input 5 "Entertainment" [2; 6]) as Hinput.
  assert (Hpool : candidates (db (trivia_world rng)) (VInt 5)
                  = trivia 2 "5" :: [trivia 3 "5"; trivia 6 "5"]) by reflexivity.
  assert (Hdraw : (rng 0%nat mod 3 < 3)%nat) by (by apply Nat.mod_upper_bound).
  destruct (rng 0%nat mod 3)%nat as [| [| [| n]]] eqn:Hmod; [| | | lia].
  - apply (quiz_served_draw_diverges _ _ _ _ _ _ Hinput Hpool).
    + unfold drawn. cbn [entropy draws trivia_world length]. rewrite Hmod.
      by_evaluation.
    + done.
  - rewrite (quiz_fresh_draw _ _ _ _ _ _ Hinput Hpool).
    + unfold drawn. cbn [entropy draws trivia_world length]. by rewrite Hmod.
    + unfold drawn. cbn [entropy draws trivia_world length]. rewrite Hmod.
      by_evaluation.
  - apply (quiz_served_draw_diverges _ _ _ _ _ _ Hinput Hpool).
    + unfold drawn. cbn [entropy draws trivia_world length]. rewrite Hmod.
      by_evaluation.
    + done.
Qed.

(** C2. Quiz no-repeat invariant. Whenever the view returns a question,
    the question is one of the candidates and its identifier is not among
    the served identifiers of the request. *)
Theorem quiz_no_repeat (fuel : nat) (request : Request) (w w' : world)
    (question : gmap string value) :
  get_quiz_question fuel request w = Some (Return (QuizQuestionPayload question), w') ->
  exists category_id served chosen,
    quiz_input request category_id served
    /\ chosen ∈ candidates (db w) category_id
    /\ question = Question.format chosen
    /\ question !! "id" = Some (VInt (Question.id chosen))
    /\ VInt (Question.id chosen) ∉ served.
Proof.
  intros Hrun.
  destruct (get_quiz_question_return_inv _ _ _ _ _ Hrun)
    as (category_id & served & Hinput).
  exists category_id, served.
  rewrite (get_quiz_question_setup _ _ _ _ _ Hinput) in Hrun.
  destruct (candidates (db w) category_id) as [| x pool] eqn:Hpool; [done |].
  cbn zeta in Hrun. unfold finish in Hrun.
  destruct (decide (VInt (Question.id (drawn w x pool)) ∈ served)) as [Hold | Hfresh].
  - exfalso.
    destruct (decide (length served = length (x :: pool))) as [Hlen | Hlen].
    + destruct fuel as [| fuel].
      * cbn in Hrun. by rewrite bool_decide_eq_true_2 in Hrun.
      * rewrite quiz_loop_game_over in Hrun; [done | | done].
        by apply bool_decide_eq_true.
    + rewrite quiz_loop_diverges in Hrun; [done | | done].
      by apply bool_decide_eq_true.
  - rewrite while_skipped in Hrun by (by apply bool_decide_eq_false).
    injection Hrun as <- _. exists (drawn w x pool).
    split; [done |]. split; [apply drawn_elem_of |].
    split; [done |]. split; [apply format_id | done].
Qed.

(** The scenario of the specification, when the first draw lands on
    question 3. *)
Lemma quiz_no_repeat_witness :
  exists category_id served chosen,
    quiz_input (quiz_request 5 "Entertainment" [2; 6]) category_id served
    /\ chosen ∈ candidates (db (trivia_world (fun _ => 1%nat))) category_id
    /\ Question.format (trivia 3 "5") = Question.format chosen
    /\ Question.format (trivia 3 "5") !! "id" = Some (VInt (Question.id chosen))
    /\ VInt (Question.id chosen) ∉ served.
Proof.
  apply (quiz_no_repeat 0 (quiz_request 5 "Entertainment" [2; 6])
           (trivia_world (fun _ => 1%nat)) (tick (trivia_world (fun _ => 1%nat)))).
  reflexivity.
Defined.

(** C3, as the code has it. When the pool is not empty, every candidate
    has been served and the number of served identifiers equals the size
    of the pool, the view draws twice and then returns the terminal
    payload, with no question in it and with status 200. *)
Theorem quiz_exhausted_game_over (fuel : nat) (request : Request) (w : world)
    (category_id : value) (served : list value) :
  quiz_input request category_id served ->
  candidates (db w) category_id ≠ [] ->
  length served = length (candidates (db w) category_id) ->
  (forall q, q ∈ candidates (db w) category_id -> VInt (Question.id q) ∈ served) ->
  get_quiz_question (S fuel) request w = Some (Return GameOverPayload, tick (tick w))
  /\ make_response (Return GameOverPayload)
     = {| status := 200; data := Success GameOverPayload |}.
Proof.
  intros Hinput Hnonempty Hlen Hall. split; [| done].
  destruct (candidates (db w) category_id) as [| x pool] eqn:Hpool; [done |].
  apply (quiz_served_draw_game_over _ _ _ _ _ _ Hinput Hpool); [| done].
  apply Hall, drawn_elem_of.
Qed.

(** The scenario of the specification: the pool 2, 3, 6 after 2, 3 and 6
    were served. *)
Lemma quiz_exhausted_game_over_witness :
  get_quiz_question 1 (quiz_request 5 "Entertainment" [2; 3; 6])
                    (trivia_world (fun n => n))
  = Some (Return GameOverPayload, tick (tick (trivia_world (fun n => n))))
  /\ make_response (Return GameOverPayload)
     = {| status := 200; data := Success GameOverPayload |}.
Proof.
  apply (quiz_exhausted_game_over 0 _ _ (VInt 5) (VInt <$> [2; 3; 6])).
  - apply quiz_request_input.
  - vm_compute. discriminate.
  - reflexivity.
  - intros q Hq. vm_compute in Hq.
    repeat (apply elem_of_cons in Hq as [-> | Hq]; [by_evaluation |]).
    by apply elem_of_nil in Hq.
Defined.

(** C3 as stated does not hold. With one candidate, question 7, and one
    served identifier, 99, the two numbers are equal, yet the view returns
    question 7. And where it does return the terminal payload, for the
    pool 2, 3, 6 after 2, 3 and 6 were served, it has drawn twice. *)
Lemma quiz_exhaustion_counterexample :
  let request := quiz_request 1 "Science" [99] in
  let w := trivia_world (fun _ => 0%nat) in
  (exists served,
      quiz_input request (VInt 1) served
      /\ length served = length (candidates (db w) (VInt 1))
      /\ get_quiz_question 1 request w
         = Some (Return (QuizQuestionPayload (Question.format (trivia 7 "1"))), tick w))
  /\ (exists w',
         get_quiz_question 1 (quiz_request 5 "Entertainment" [2; 3; 6]) w
         = Some (Return GameOverPayload, w')
         /\ draws w' = (draws w + 2)%nat).
Proof.
  split.
  - exists [VInt 99]. split; [apply quiz_request_input | by split].
  - by eexists.
Qed.

(** C4. On an empty pool the first statement after the query,
    [random.choice(questions)], raises [IndexError]; the view has no
    handler for it and the request is answered with status 500, not with
    the terminal payload. *)
Theorem quiz_empty_pool_raises (fuel : nat) (request : Request) (w : world)
    (category_id : value) (served : list value) :
  quiz_input request category_id served ->
  candidates (db w) category_id = [] ->
  get_quiz_question fuel request w = Some (Raise IndexError, w)
  /\ make_response (Raise IndexError)
     = {| status := 500;
          data := Failure 500 "Sorry, the server is down. Please try again later." |}.
Proof.
  intros Hinput Hpool. split; [| done].
  by rewrite (get_quiz_question_setup _ _ _ _ _ Hinput), Hpool.
Qed.

(** A first quiz turn in category 4, which holds no question. *)
Lemma quiz_empty_pool_raises_witness :
  get_quiz_question 1 (quiz_request 4 "History" []) (trivia_world (fun _ => 0%nat))
  = Some (Raise IndexError, trivia_world (fun _ => 0%nat))
  /\ make_response (Raise IndexError)
     = {| status := 500;
          data := Failure 500 "Sorry, the server is down. Please try again later." |}.
Proof.
  apply (quiz_empty_pool_raises 1 _ _ (VInt 4) []).
  - apply (quiz_request_input 4 "History" []).
  - reflexivity.
Defined.

(** ** Questions of a category *)

Lemma slice_sublist {A} (l : list A) (start stop : Z) : slice l start stop `sublist_of` l.
Proof.
  unfold slice. etrans; [apply sublist_take | apply sublist_drop].
Qed.

(** Every dictionary on a page is the formatted form of a selected row. *)
Lemma paginate_elem_of (request : Request) (selections : list Question.t)
    (d : gmap string value) :
  d ∈ paginate request selections ->
  exists q, q ∈ selections /\ d = Question.format q.
Proof.
  unfold paginate. intros Hd.
  pose proof (elem_of_sublist _ _ _ Hd (slice_sublist _ _ _)) as Hin.
  apply list_elem_of_In, in_map_iff in Hin as (q & <- & Hq).
  exists q. split; [by apply list_elem_of_In | done].
Qed.

Lemma format_category (q : Question.t) :
  Question.format q !! "category" = Some (VStr (Question.category q)).
Proof. reflexivity. Qed.

(** C9. Category scoping. When no category record bears the identifier,
    the view aborts with 404. When one record bears it, the view answers
    with the page of the questions whose category reference is the
    identifier, in the text form [str(id)] in which the store keeps
    category references. Whenever the view succeeds, every question in its
    answer is a stored question with that category reference. *)
Theorem category_scoping (request : Request) (id : Z) (w : world) :
  ((forall c, c ∈ categories (db w) -> Category.id c ≠ id) ->
   show_questions_by_category request id w = (Raise (HTTPException 404), w)
   /\ make_response (Raise (HTTPException 404))
      = {| status := 404; data := Failure 404 "Sorry, Resource not found" |})
  /\ (forall c, filter (fun c => Category.id c = id) (categories (db w)) = [c] ->
      let found := filter (fun q => Question.category q = str id) (questions (db w)) in
      show_questions_by_category request id w
      = (Return (CategoryQuestionsPayload (paginate request found) (length found)
                                          (Category.type c)), w))
  /\ (forall page total current w',
         show_questions_by_category request id w
         = (Return (CategoryQuestionsPayload page total current), w') ->
         (exists c, c ∈ categories (db w) /\ Category.id c = id
                    /\ Category.type c = current)
         /\ forall d, d ∈ page ->
              exists q, q ∈ questions (db w)
                        /\ d = Question.format q
                        /\ Question.category q = str id
                        /\ d !! "category" = Some (VStr (str id))).
Proof.
  unfold show_questions_by_category, bind, Category_query_one_or_none.
  split.
  - intros Hunknown. split; [| done].
    destruct (filter _ (categories (db w))) as [| c rest] eqn:Hfilter; [done |].
    assert (Hc : c ∈ filter (fun c => Category.id c = id) (categories (db w)))
      by (rewrite Hfilter; left).
    apply list_elem_of_filter in Hc as [Hid Hc]. by destruct (Hunknown c Hc).
  - split; [by intros c -> |].
    intros page total current w'.
    destruct (filter _ (categories (db w))) as [| c [| c' rest]] eqn:Hfilter;
      [done | | done].
    cbn. intros [= <- _ <- _].
    assert (Hc : c ∈ filter (fun c => Category.id c = id) (categories (db w)))
      by (rewrite Hfilter; left).
    apply list_elem_of_filter in Hc as [Hid Hc].
    split; [by exists c |].
    intros d Hd. apply paginate_elem_of in Hd as (q & Hq & ->).
    apply list_elem_of_filter in Hq as [Hcat Hq].
    exists q. split; [done |]. split; [done |]. split; [done |].
    by rewrite format_category, Hcat.
Qed.

(** In the store of the scenarios no category bears identifier 3, and
    category 5 holds the questions 2, 3 and 6. *)
Lemma category_scoping_witness :
  let request id := {| method := GET; path := ["categories"; str id; "questions"];
                       page_arg := None; json := None |} in
  let w := trivia_world (fun _ => 0%nat) in
  show_questions_by_category (request 3) 3 w = (Raise (HTTPException 404), w)
  /\ forall d, d ∈ Question.format <$> [trivia 2 "5"; trivia 3 "5"; trivia 6 "5"] ->
       exists q, q ∈ questions (db w) /\ d = Question.format q
                 /\ Question.category q = str 5
                 /\ d !! "category" = Some (VStr (str 5)).
Proof.
  intros request w. split.
  - apply (category_scoping (request 3) 3 w).
    intros c Hc. vm_compute in Hc.
    repeat (apply elem_of_cons in Hc as [-> | Hc]; [done |]).
    by apply elem_of_nil in Hc.
  - apply (proj2 (proj2 (category_scoping (request 5) 5 w)) _ 3%nat "Entertainment" w).
    reflexivity.
Defined.

(** ** Creation *)

Lemma bind_ret {A B} (a : A) (k : A -> M B) (w : world) : bind (ret a) k w = k a w.
Proof. reflexivity. Qed.

Lemma bind_raise {A B} (e : exn) (k : A -> M B) (w : world) :
  bind (raise e) k w = (Raise e, w).
Proof. reflexivity. Qed.

Section Creation_properties.
Variable accepts : Question.t -> bool.

(** The view, one statement after the other. *)
Lemma create_question_unfold (request : Request) (w : world) :
  create_question accepts request w
  = match json request with
    | None => (Raise TypeError, w)
    | Some b =>
        match entries b !! "question" with
        | None => (Raise (KeyError "question"), w)
        | Some the_question =>
        match entries b !! "answer" with
        | None => (Raise (KeyError "answer"), w)
        | Some the_answer =>
        match entries b !! "category" with
        | None => (Raise (KeyError "category"), w)
        | Some the_category =>
        match entries b !! "difficulty" with
        | None => (Raise (KeyError "difficulty"), w)
        | Some the_difficulty =>
            match Question_insert accepts the_question the_answer the_category
                                  the_difficulty w with
            | (Return created, w') =>
                (Return (CreatedPayload created
                           (paginate request (questions (db w')))
                           (length (questions (db w')))), w')
            | (Raise e, w') => (Raise e, w')
            end
        end end end end
    end.
Proof.
  unfold create_question, get_json. rewrite bind_ret.
  destruct (json request) as [b |]; [| done]. cbn [body_getitem].
  unfold getitem at 1. destruct (entries b !! "question"); [| done].
  rewrite bind_ret.
  unfold getitem at 1. destruct (entries b !! "answer"); [| done].
  rewrite bind_ret.
  unfold getitem at 1. destruct (entries b !! "category"); [| done].
  rewrite bind_ret.
  unfold getitem at 1. destruct (entries b !! "difficulty"); [| done].
  rewrite bind_ret. unfold bind at 1.
  by destruct (Question_insert _ _ _ _ _ w) as [[created | e] w'].
Qed.

(** The view reads the four entries in turn; the first one that is
    absent ends it with a [KeyError], and nothing is stored. *)
Lemma create_question_missing_field (request : Request) (b : Body) (w : world) :
  json request = Some b ->
  (exists key, key ∈ ["question"; "answer"; "category"; "difficulty"]
               /\ entries b !! key = None) ->
  exists key, key ∈ ["question"; "answer"; "category"; "difficulty"]
              /\ create_question accepts request w = (Raise (KeyError key), w).
Proof.
  intros Hjson (key & Hkey & Hmissing).
  rewrite create_question_unfold, Hjson.
  destruct (entries b !! "question") eqn:?;
    [| exists "question"; split; [by_evaluation | done]].
  destruct (entries b !! "answer") eqn:?;
    [| exists "answer"; split; [by_evaluation | done]].
  destruct (entries b !! "category") eqn:?;
    [| exists "category"; split; [by_evaluation | done]].
  destruct (entries b !! "difficulty") eqn:?;
    [| exists "difficulty"; split; [by_evaluation | done]].
  exfalso.
  repeat (apply elem_of_cons in Hkey as [-> | Hkey]; [congruence |]).
  by apply elem_of_nil in Hkey.
Qed.

(** A row the store refuses ends the insertion with the store's
    exception, and nothing is stored. *)
Lemma Question_insert_outcome (question answer category difficulty : value) (w : world) :
  (exists id w', Question_insert accepts question answer category difficulty w
                 = (Return id, w'))
  \/ Question_insert accepts question answer category difficulty w
     = (Raise StoreError, w).
Proof.
  unfold Question_insert.
  destruct (as_text question), (as_text answer), (as_text category),
    (as_int difficulty); auto.
  destruct (accepts _); eauto.
Qed.

(** Every way the view ends. *)
Lemma create_question_outcome (request : Request) (w : world) :
  (exists created page total w',
      create_question accepts request w
      = (Return (CreatedPayload created page total), w'))
  \/ (exists e, create_question accepts request w = (Raise e, w)
                /\ (e = TypeError \/ e = StoreError \/ exists key, e = KeyError key)).
Proof.
  rewrite create_question_unfold.
  destruct (json request) as [b |]; [| right; exists TypeError; auto].
  destruct (entries b !! "question") as [v1 |];
    [| right; exists (KeyError "question"); split; [done | right; right; by eexists]].
  destruct (entries b !! "answer") as [v2 |];
    [| right; exists (KeyError "answer"); split; [done | right; right; by eexists]].
  destruct (entries b !! "category") as [v3 |];
    [| right; exists (KeyError "category"); split; [done | right; right; by eexists]].
  destruct (entries b !! "difficulty") as [v4 |];
    [| right; exists (KeyError "difficulty"); split; [done | right; right; by eexists]].
  destruct (Question_insert_outcome v1 v2 v3 v4 w) as [(id & w' & ->) | ->].
  - left. by eexists _, _, _, _.
  - right. exists StoreError. auto.
Qed.

(** C6. The creation view never signals 422. It has no [try] block and
    never calls [abort]: an absent field ends it with a [KeyError] and a
    row the store refuses with the store's exception, and either is
    answered with status 500; every other request is answered with
    status 200. *)
Theorem create_question_never_422 (request : Request) (w : world) :
  (forall code, (create_question accepts request w).1 ≠ Raise (HTTPException code))
  /\ (status (make_response (create_question accepts request w).1) = 200
      \/ status (make_response (create_question accepts request w).1) = 500).
Proof.
  destruct (create_question_outcome request w)
    as [(created & page & total & w' & ->) | (e & -> & He)].
  - split; [done | by left].
  - split.
    + intros code. cbn. destruct He as [-> | [-> | [key ->]]]; done.
    + right. destruct He as [-> | [-> | [key ->]]]; done.
Qed.
End Creation_properties.

(** ** Search *)

Lemma is_prefix_spec (t s : list ascii) :
  is_prefix t s = true <-> exists post, s = t ++ post.
Proof.
  revert s. induction t as [| c t IH]; intros s; cbn.
  - split; [by exists s | done].
  - destruct s as [| d s]; [split; [done | by intros [post ?]] |].
    rewrite andb_true_iff, IH. split.
    + intros [Hcd [post ->]]. apply Ascii.eqb_eq in Hcd as ->. by exists post.
    + intros [post [= -> ->]]. split; [apply Ascii.eqb_refl | by exists post].
Qed.

Lemma is_substring_spec (t s : list ascii) :
  is_substring t s = true <-> exists pre post, s = pre ++ t ++ post.
Proof.
  induction s as [| d s IH]; cbn [is_substring]; rewrite orb_true_iff, is_prefix_spec.
  - split.
    + intros [[post ->] | ?]; [by exists [], post | done].
    + intros (pre & post & Heq). left.
      destruct pre; [exists post; exact Heq | done].
  - rewrite IH. split.
    + intros [[post ->] | (pre & post & ->)]; [by exists [], post |].
      by exists (d :: pre), post.
    + intros ([| d' pre] & post & Heq); [left; exists post; exact Heq |].
      injection Heq as <- ->. right. by exists pre, post.
Qed.

Lemma like_match_any_string (p : list like_token) (s : list ascii) :
  like_match (AnyString :: p) s
  = like_match p s
    || match s with [] => false | _ :: s' => like_match (AnyString :: p) s' end.
Proof. by destruct s. Qed.

Lemma like_match_trailing_any (s : list ascii) : like_match [AnyString] s = true.
Proof.
  induction s as [| d s IH]; [done |]. by rewrite like_match_any_string, IH.
Qed.

Lemma like_match_literals (t s : list ascii) :
  like_match ((Literal <$> t) ++ [AnyString]) s = is_prefix (lower <$> t) (lower <$> s).
Proof.
  revert s. induction t as [| c t IH]; intros s.
  - apply like_match_trailing_any.
  - destruct s as [| d s]; [done |]. cbn. by rewrite <- IH.
Qed.

Lemma like_match_enclosed (t s : list ascii) :
  like_match (AnyString :: (Literal <$> t) ++ [AnyString]) s
  = is_substring (lower <$> t) (lower <$> s).
Proof.
  induction s as [| d s IH].
  - rewrite like_match_any_string, like_match_literals. reflexivity.
  - rewrite like_match_any_string, like_match_literals, IH. reflexivity.
Qed.

Lemma like_pattern_plain (t p : list ascii) :
  forallb plain t = true ->
  like_pattern (t ++ p) = (Literal <$> t) ++ like_pattern p.
Proof.
  induction t as [| c t IH]; [done |]. cbn [forallb]. intros [Hc Ht]%andb_true_iff.
  unfold plain in Hc. apply andb_true_iff in Hc as [[H1 H2]%andb_true_iff H3].
  apply negb_true_iff in H1, H2, H3.
  cbn [app like_pattern]. rewrite H1, H2, H3. cbn. by rewrite IH.
Qed.

Lemma list_ascii_of_string_app (s1 s2 : string) :
  list_ascii_of_string (s1 ++ s2)
  = list_ascii_of_string s1 ++ list_ascii_of_string s2.
Proof. induction s1 as [| c s1 IH]; [done |]. simpl. by rewrite IH. Qed.

(** For a term without pattern characters, [ilike] on ['%term%'] is
    case-insensitive containment. *)
Lemma ilike_plain_term (term text : string) :
  forallb plain (list_ascii_of_string term) = true ->
  ilike text ("%" ++ term ++ "%") = contains_term term text.
Proof.
  intros Hplain. unfold ilike, contains_term.
  change ("%" ++ term ++ "%")%string with (String "%" (term ++ "%")).
  cbn [list_ascii_of_string]. rewrite list_ascii_of_string_app.
  change (like_pattern ("%"%char :: ?l)) with (AnyString :: like_pattern l).
  rewrite like_pattern_plain by done.
  apply like_match_enclosed.
Qed.

(** The view on a body that holds a search term. *)
Lemma search_questions_unfold (request : Request) (b : Body) (term : string) (w : world) :
  json request = Some b ->
  entries b !! "searchTerm" = Some (VStr term) ->
  search_questions request w
  = if String.eqb term "" then (Raise (UnboundLocalError "search_term"), w)
    else match filter (fun q => ilike (Question.question q) ("%" ++ term ++ "%") = true)
                      (questions (db w)) with
         | [] => (Raise (HTTPException 404), w)
         | q :: found =>
             (Return (SearchPayload (paginate request (q :: found))
                                    (length (q :: found))), w)
         end.
Proof.
  intros Hjson Hterm. unfold search_questions, get_json.
  rewrite bind_ret, Hjson. cbn [body_get]. rewrite !bind_ret, Hterm.
  change (default VNone (Some (VStr term))) with (VStr term).
  cbn [truthy]. destruct (String.eqb term ""); [done |].
  cbn [negb]. rewrite bind_ret. cbn [format_value].
  unfold bind, Question_query_filter_ilike.
  by destruct (filter _ _).
Qed.

(** For a term that is not empty and holds no pattern character, the
    questions found are exactly those that contain the term, whatever the
    case of the letters. *)
Lemma search_questions_plain_term (request : Request) (b : Body) (term : string)
    (w : world) :
  json request = Some b ->
  entries b !! "searchTerm" = Some (VStr term) ->
  term ≠ ""%string ->
  forallb plain (list_ascii_of_string term) = true ->
  search_questions request w
  = match filter (fun q => contains_term term (Question.question q) = true)
                 (questions (db w)) with
    | [] => (Raise (HTTPException 404), w)
    | q :: found =>
        (Return (SearchPayload (paginate request (q :: found))
                               (length (q :: found))), w)
    end.
Proof.
  intros Hjson Hterm Hnonempty Hplain.
  rewrite (search_questions_unfold _ _ _ _ Hjson Hterm).
  destruct (String.eqb_spec term ""); [done |].
  rewrite (list_filter_iff _ (fun q => contains_term term (Question.question q) = true));
    [done |].
  intros q. by rewrite ilike_plain_term.
Qed.

(** In the pattern ['%_%'] the underscore stands for any one character:
    the pattern matches every text that is not empty. *)
Lemma ilike_underscore (text : string) :
  ilike text "%_%" = negb (String.eqb text "").
Proof.
  unfold ilike. destruct text as [| c text]; [done |].
  change (like_pattern (list_ascii_of_string "%_%")) with [AnyString; AnyChar; AnyString].
  cbn [list_ascii_of_string]. rewrite like_match_any_string.
  change (like_match [AnyChar; AnyString] (c :: ?l)) with (like_match [AnyString] l).
  by rewrite like_match_trailing_any.
Qed.

(** C8. Search containment fails for a term that holds a pattern
    character. The term ["_"] is put into the pattern unescaped, where it
    stands for any one character, so the search finds every question
    whose text is not empty. On the store of the scenarios it returns all
    four questions, and none of them contains an underscore. *)
Theorem search_underscore_matches_every_question (w : world) :
  search_questions (search_request "_") w
  = match filter (fun q => Question.question q ≠ ""%string) (questions (db w)) with
    | [] => (Raise (HTTPException 404), w)
    | q :: found =>
        (Return (SearchPayload (paginate (search_request "_") (q :: found))
                               (length (q :: found))), w)
    end
  /\ search_questions (search_request "_") (trivia_world (entropy w))
     = (Return (SearchPayload (Question.format <$> questions trivia_store) 4),
        trivia_world (entropy w))
  /\ filter (fun q => contains_term "_" (Question.question q) = true)
            (questions trivia_store) = [].
Proof.
  split; [| by split].
  erewrite (search_questions_unfold (search_request "_") _ "_"); [| done | done].
  change (String.eqb "_" "") with false. cbn iota.
  rewrite (list_filter_iff _ (fun q => Question.question q ≠ ""%string)); [done |].
  intros q. rewrite ilike_underscore, negb_true_iff.
  by destruct (String.eqb_spec (Question.question q) "").
Qed.

(** On the same store the term ["QUESTION 3"] finds question 3 alone. *)
Example search_plain_term_finds_question_3 :
  let w := trivia_world (fun _ => 0%nat) in
  search_questions (search_request "QUESTION 3") w
  = (Return (SearchPayload [Question.format (trivia 3 "5")] 1), w).
Proof.
  intros w.
  erewrite (search_questions_plain_term (search_request "QUESTION 3") _ "QUESTION 3");
    reflexivity || done.
Qed.

(** *** Creation, on the requests of the tests *)

(** On a store without constraints the question with the empty answer is
    created, as question 8, and the request is answered with status 200. *)
Example create_empty_answer_succeeds :
  let w := trivia_world (fun _ => 0%nat) in
  exists page w',
    full_dispatch_request (fun _ => true) 0 bad_question w
    = Some ({| status := 200; data := Success (CreatedPayload 8 page 5) |}, w')
    /\ Question.answer <$> questions (db w') = ["Answer 2"; "Answer 3"; "Answer 6";
                                                "Answer 7"; ""]%string.
Proof. intros w. by eexists _, _. Qed.

(** On a store that refuses it, and for a body without an answer, the
    request is answered with status 500. *)
Example create_invalid_question_is_500 :
  let w := trivia_world (fun _ => 0%nat) in
  let down := {| status := 500;
                 data := Failure 500 "Sorry, the server is down. Please try again later." |} in
  create_question answer_required bad_question w = (Raise StoreError, w)
  /\ full_dispatch_request answer_required 0 bad_question w = Some (down, w)
  /\ create_question answer_required question_without_answer w
     = (Raise (KeyError "answer"), w)
  /\ full_dispatch_request answer_required 0 question_without_answer w = Some (down, w).
Proof. by repeat split. Qed.

(** * Further properties of the views *)

(** ** Pages *)

(** From page 1 on, the page is a window of ten formatted items. *)
Lemma paginate_window (request : Request) (items : list Question.t) :
  1 <= args_get_page request ->
  paginate request items
  = take 10 (drop (Z.to_nat (10 * (args_get_page request - 1)))
                  (map Question.format items)).
Proof.
  intros Hp. unfold paginate, QUESTIONS_PER_PAGE.
  rewrite slice_nonneg by lia. do 2 f_equal. lia.
Qed.

(** A slice whose bounds are in order is no longer than their distance. *)
Lemma slice_length {A} (l : list A) (start stop : Z) :
  start <= stop ->
  Z.of_nat (length (slice l start stop)) <= stop - start.
Proof.
  intros Horder. unfold slice, adjust_index. cbv zeta. rewrite length_take.
  generalize (length (drop (Z.to_nat
    (if start <? 0 then Z.max 0 (start + Z.of_nat (length l))
     else Z.min start (Z.of_nat (length l)))) l)). intros n. revert n.
  generalize (Nat2Z.is_nonneg (length l)).
  generalize (Z.of_nat (length l)). intros len Hlen n.
  destruct (Z.ltb_spec start 0), (Z.ltb_spec stop 0); lia.
Qed.

(** X1. Whatever the page number, zero and negative numbers included, a
    page holds at most ten items, and they are formatted forms of the
    selected rows in the order of the selection: [paginate] neither
    invents nor reorders an item. *)
Theorem paginate_page_size (request : Request) (items : list Question.t) :
  (length (paginate request items) <= 10)%nat
  /\ paginate request items `sublist_of` map Question.format items.
Proof.
  split; [| apply slice_sublist].
  unfold paginate, QUESTIONS_PER_PAGE.
  pose proof (slice_length (map Question.format items)
                ((args_get_page request - 1) * 10)
                ((args_get_page request - 1) * 10 + 10)).
  lia.
Qed.

(** X2. A page number below 1 is not refused. Page 0 is empty for every
    list. For a page [p <= -1] both bounds of the slice are negative and
    count from the end of the list: the page holds the items from index
    [max 0 (N + 10 * (p - 1))] up to index [max 0 (N + 10 * p)], which
    are ten items of the tail when the list has [10 * (1 - p)] items or
    more. *)
Theorem paginate_below_first_page (request : Request) (items : list Question.t) (p : Z) :
  args_get_page request = p ->
  p <= 0 ->
  let N := Z.of_nat (length items) in
  let lo := Z.max 0 (N + 10 * (p - 1)) in
  let hi := Z.max 0 (N + 10 * p) in
  (p = 0 -> paginate request items = [])
  /\ (p <= -1 ->
      paginate request items
      = take (Z.to_nat (hi - lo)) (drop (Z.to_nat lo) (map Question.format items)))
  /\ (p <= -1 -> 10 * (1 - p) <= N ->
      paginate request items
      = take 10 (drop (Z.to_nat (N - 10 * (1 - p))) (map Question.format items))
      /\ length (paginate request items) = 10%nat).
Proof.
  intros Hpage Hp N lo hi.
  assert (Hneg : p <= -1 ->
            paginate request items
            = take (Z.to_nat (hi - lo)) (drop (Z.to_nat lo) (map Question.format items))).
  { intros Hp1. unfold paginate, QUESTIONS_PER_PAGE, slice, adjust_index.
    rewrite Hpage, length_map. fold N.
    destruct (Z.ltb_spec ((p - 1) * 10) 0) as [_ | ?]; [| lia].
    destruct (Z.ltb_spec ((p - 1) * 10 + 10) 0) as [_ | ?]; [| lia].
    subst lo hi. do 2 f_equal; [f_equal; lia | f_equal; lia]. }
  split; [| split; [done |]].
  - intros ->. unfold paginate, QUESTIONS_PER_PAGE, slice, adjust_index.
    rewrite Hpage. change ((0 - 1) * 10) with (-10). change (-10 + 10) with 0.
    change (0 <? 0) with false. change (-10 <? 0) with true. cbv iota zeta.
    replace (Z.to_nat (Z.min 0 _ - _)) with 0%nat by lia. done.
  - intros Hp1 Hmany. rewrite (Hneg Hp1). subst lo hi.
    replace (Z.max 0 (N + 10 * (p - 1))) with (N - 10 * (1 - p)) by lia.
    replace (Z.to_nat (Z.max 0 (N + 10 * p) - _)) with 10%nat by lia.
    split; [done |].
    rewrite length_take, length_drop, length_map. subst N. lia.
Qed.

(** Twenty-five questions, page -1: the questions 6 to 15. *)
Lemma paginate_below_first_page_witness :
  let request := {| method := GET; path := ["questions"]; page_arg := Some (-1);
                    json := None |} in
  let items := (fun i => trivia i "1") <$> seqZ 1 25 in
  paginate request items = map Question.format ((fun i => trivia i "1") <$> seqZ 6 10)
  /\ length (paginate request items) = 10%nat.
Proof.
  intros request items.
  destruct (paginate_below_first_page request items (-1)) as (_ & _ & Hwindow);
    [reflexivity | lia |].
  destruct Hwindow as [Hwindow Hlen]; [lia | vm_compute; discriminate |].
  split; [| exact Hlen]. rewrite Hwindow. reflexivity.
Defined.

(** ** Listing questions and categories *)

(** X3. [show_questions] from page 1 on. When the page starts at or after
    the end of the stored questions, the view aborts with 404; so it does
    on every page of an empty store. Otherwise it answers with the
    window of at most ten questions, and [total_questions] is the number
    of all stored questions, whatever the page. The world is left as it
    was. *)
Theorem show_questions_pages (request : Request) (w : world) (p : Z) :
  args_get_page request = p ->
  1 <= p ->
  let N := Z.of_nat (length (questions (db w))) in
  (N <= 10 * (p - 1) ->
   show_questions request w = (Raise (HTTPException 404), w))
  /\ (10 * (p - 1) < N ->
      let page := take 10 (drop (Z.to_nat (10 * (p - 1)))
                                (map Question.format (questions (db w)))) in
      show_questions request w
      = (Return (QuestionsPayload page (length (questions (db w)))
                                  (categories_dict_of (categories (db w)))), w)
      /\ Z.of_nat (length page) = Z.min 10 (N - 10 * (p - 1))).
Proof.
  intros Hpage Hp N.
  assert (Hwindow := paginate_window request (questions (db w))).
  rewrite Hpage in Hwindow. specialize (Hwindow Hp).
  assert (Hlen : Z.of_nat (length (paginate request (questions (db w))))
                 = Z.min 10 (Z.max 0 (N - 10 * (p - 1)))).
  { rewrite Hwindow, length_take, length_drop, length_map. subst N. lia. }
  unfold show_questions, Question_query_all, Category_query_all, bind.
  split.
  - intros Hout.
    destruct (Nat.eqb_spec (length (paginate request (questions (db w)))) 0); [done | lia].
  - intros Hin. cbv zeta. rewrite <- Hwindow.
    split; [| lia].
    destruct (Nat.eqb_spec (length (paginate request (questions (db w)))) 0); [lia | done].
Qed.

(** In the store of the scenarios, which holds four questions, page 1
    lists them all and page 2 is not found. *)
Lemma show_questions_pages_witness :
  let request p := {| method := GET; path := ["questions"]; page_arg := Some p;
                      json := None |} in
  let w := trivia_world (fun _ => 0%nat) in
  show_questions (request 2) w = (Raise (HTTPException 404), w)
  /\ show_questions (request 1) w
     = (Return (QuestionsPayload (map Question.format (questions trivia_store)) 4
                                 (categories_dict_of (categories trivia_store))), w).
Proof.
  intros request w. split.
  - apply (show_questions_pages (request 2) w 2); [reflexivity | lia | vm_compute; discriminate].
  - apply (proj2 (show_questions_pages (request 1) w 1 eq_refl ltac:(lia))).
    reflexivity.
Defined.

(** The dictionary built by the loop over the categories holds, for every
    identifier, the type of the last category that bears it. *)
Lemma categories_dict_of_lookup (all_categories : list Category.t) (i : Z) :
  categories_dict_of all_categories !! i
  = Category.type <$> last (filter (fun c => Category.id c = i) all_categories).
Proof.
  unfold categories_dict_of.
  enough (Hgen : forall d : gmap Z string,
             fold_left (fun d category =>
                          <[Category.id category := Category.type category]> d)
                       all_categories d !! i
             = match last (filter (fun c => Category.id c = i) all_categories) with
               | Some c => Some (Category.type c)
               | None => d !! i
               end).
  { rewrite Hgen, lookup_empty. by destruct (last _). }
  induction all_categories as [| c l IH]; intros d; [done |].
  cbn [fold_left]. rewrite IH.
  destruct (decide (Category.id c = i)) as [Heq | Hne].
  - rewrite filter_cons_True by done. rewrite last_cons.
    destruct (last (filter _ l)); [done |]. by rewrite Heq, lookup_insert_eq.
  - rewrite filter_cons_False by done.
    destruct (last (filter _ l)); [done |]. by rewrite lookup_insert_ne.
Qed.

(** X4. [show_categories] aborts with 404 exactly when the store holds no
    category. Otherwise it answers with a dictionary that has an entry
    for an identifier exactly when a category bears it, and the entry is
    the type of that category (of the last one, should two bear the same
    identifier). The world is left as it was. *)
Theorem show_categories_outcome (w : world) :
  match categories (db w) with
  | [] => show_categories w = (Raise (HTTPException 404), w)
  | _ :: _ =>
      exists dict,
        show_categories w = (Return (CategoriesPayload dict), w)
        /\ (forall i, dict !! i
                      = Category.type
                          <$> last (filter (fun c => Category.id c = i)
                                           (categories (db w))))
        /\ (forall i, is_Some (dict !! i)
                      <-> exists c, c ∈ categories (db w) /\ Category.id c = i)
  end.
Proof.
  unfold show_categories, Category_query_all, bind.
  destruct (categories (db w)) as [| c l] eqn:Hcats; [done |].
  exists (categories_dict_of (c :: l)). split; [done |].
  split; [apply categories_dict_of_lookup |].
  intros i. rewrite categories_dict_of_lookup, fmap_is_Some. split.
  - intros [c' Hlast]. exists c'. apply last_Some_elem_of in Hlast.
    apply list_elem_of_filter in Hlast as [? ?]. done.
  - intros (c' & Hin & Hid).
    destruct (last (filter _ (c :: l))) as [c'' |] eqn:Hlast; [done |].
    apply last_None in Hlast.
    assert (Hc' : c' ∈ filter (fun c => Category.id c = i) (c :: l))
      by (by apply list_elem_of_filter).
    rewrite Hlast in Hc'. by apply elem_of_nil in Hc'.
Qed.

(** ** Deleting twice *)

Lemma find_filter_ne (id : Z) (l : list Question.t) :
  find (fun q => Question.id q =? id) (filter (fun r => Question.id r ≠ id) l) = None.
Proof.
  induction l as [| q l IH]; [done |].
  destruct (decide (Question.id q ≠ id)) as [Hne | Heq].
  - rewrite filter_cons_True by done. cbn [find].
    by destruct (Z.eqb_spec (Question.id q) id).
  - by rewrite filter_cons_False.
Qed.

(** Deletion touches the table of questions only. *)
Lemma delete_question_frame (id : Z) (w : world) :
  categories (db (delete_question id w).2) = categories (db w)
  /\ next_id (db (delete_question id w).2) = next_id (db w)
  /\ entropy (delete_question id w).2 = entropy w
  /\ draws (delete_question id w).2 = draws w.
Proof.
  unfold delete_question, try_except, bind, Question_query_get.
  by destruct (find _ _).
Qed.

(** X5. Deletion is not repeatable. Once [delete_question] has run for an
    identifier, whether it found a question or not, a second run for the
    same identifier ends in [abort(422)] and changes nothing. Neither run
    touches the categories, the next identifier of the store or the
    random generator. *)
Theorem delete_question_twice (id : Z) (w : world) :
  let w1 := (delete_question id w).2 in
  delete_question id w1 = (Raise (HTTPException 422), w1)
  /\ categories (db w1) = categories (db w)
  /\ next_id (db w1) = next_id (db w)
  /\ entropy w1 = entropy w
  /\ draws w1 = draws w.
Proof.
  intros w1. split; [| apply delete_question_frame].
  assert (Hgone : find (fun q => Question.id q =? id) (questions (db w1)) = None).
  { subst w1. rewrite delete_question_store. apply find_filter_ne. }
  unfold delete_question at 1, try_except, bind, Question_query_get.
  by rewrite Hgone.
Qed.

(** ** Creating a question *)

Section Creation_success.
Variable accepts : Question.t -> bool.

(** What a successful insertion leaves behind. *)
Lemma Question_insert_inv (vq va vc vd : value) (w w' : world) (created : Z) :
  Question_insert accepts vq va vc vd w = (Return created, w') ->
  exists row,
    as_text vq = Some (Question.question row)
    /\ as_text va = Some (Question.answer row)
    /\ as_text vc = Some (Question.category row)
    /\ as_int vd = Some (Question.difficulty row)
    /\ Question.id row = next_id (db w)
    /\ created = next_id (db w)
    /\ accepts row = true
    /\ w' = set_db {| questions := questions (db w) ++ [row];
                      categories := categories (db w);
                      next_id := next_id (db w) + 1 |} w.
Proof.
  unfold Question_insert.
  destruct (as_text vq) as [q |], (as_text va) as [a |], (as_text vc) as [c |],
    (as_int vd) as [d |]; try done.
  destruct (accepts _) eqn:Haccepts; [| done].
  intros [= <- <-]. eexists. repeat split; done.
Qed.

(** The store after a successful creation. *)
Lemma create_question_created (request : Request) (w w' : world) (created : Z)
    (page : list (gmap string value)) (total : nat) :
  create_question accepts request w = (Return (CreatedPayload created page total), w') ->
  exists row,
    Question.id row = created
    /\ created = next_id (db w)
    /\ total = S (length (questions (db w)))
    /\ w' = set_db {| questions := questions (db w) ++ [row];
                      categories := categories (db w);
                      next_id := next_id (db w) + 1 |} w.
Proof.
  rewrite create_question_unfold.
  destruct (json request) as [b |]; [| done].
  destruct (entries b !! "question") as [vq |]; [| done].
  destruct (entries b !! "answer") as [va |]; [| done].
  destruct (entries b !! "category") as [vc |]; [| done].
  destruct (entries b !! "difficulty") as [vd |]; [| done].
  destruct (Question_insert _ _ _ _ _ w) as [[created' | e] w1] eqn:Hinsert; [| done].
  intros [= <- _ <- <-].
  apply Question_insert_inv in Hinsert as (row & _ & _ & _ & _ & Hid & -> & _ & ->).
  exists row. cbn [db set_db questions]. rewrite length_app. cbn [length].
  repeat split; try done. lia.
Qed.

(** X6. What a successful [create_question] has done. The body held the
    four entries; the new question carries their values and the next
    identifier of the store, which is the identifier in the answer; it
    is the last of the stored questions, and nothing else in the store
    has changed but the next identifier. The answer counts the new
    question in [total_questions], and its page is the page of the
    request taken from the questions after the insertion. *)
Theorem create_question_success (request : Request) (w w' : world) (created : Z)
    (page : list (gmap string value)) (total : nat) :
  create_question accepts request w = (Return (CreatedPayload created page total), w') ->
  exists b vq va vc vd row,
    json request = Some b
    /\ (entries b !! "question" = Some vq /\ as_text vq = Some (Question.question row))
    /\ (entries b !! "answer" = Some va /\ as_text va = Some (Question.answer row))
    /\ (entries b !! "category" = Some vc /\ as_text vc = Some (Question.category row))
    /\ (entries b !! "difficulty" = Some vd /\ as_int vd = Some (Question.difficulty row))
    /\ Question.id row = created
    /\ created = next_id (db w)
    /\ accepts row = true
    /\ questions (db w') = questions (db w) ++ [row]
    /\ categories (db w') = categories (db w)
    /\ next_id (db w') = next_id (db w) + 1
    /\ total = S (length (questions (db w)))
    /\ page = paginate request (questions (db w')).
Proof.
  rewrite create_question_unfold.
  destruct (json request) as [b |]; [| done].
  destruct (entries b !! "question") as [vq |] eqn:Hq; [| done].
  destruct (entries b !! "answer") as [va |] eqn:Ha; [| done].
  destruct (entries b !! "category") as [vc |] eqn:Hc; [| done].
  destruct (entries b !! "difficulty") as [vd |] eqn:Hd; [| done].
  destruct (Question_insert _ _ _ _ _ w) as [[created' | e] w1] eqn:Hinsert; [| done].
  intros [= <- <- <- <-].
  apply Question_insert_inv in Hinsert
    as (row & Hvq & Hva & Hvc & Hvd & Hid & -> & Haccepts & ->).
  exists b, vq, va, vc, vd, row. cbn [db set_db questions categories next_id].
  rewrite length_app. cbn [length]. repeat split; try done. lia.
Qed.

End Creation_success.

(** The body of the tests with the empty answer, on a store without
    constraints: question 8 is appended. *)
Lemma create_question_success_witness :
  let w' := (create_question (fun _ => true) bad_question
               (trivia_world (fun _ => 0%nat))).2 in
  exists row,
    questions (db w') = questions trivia_store ++ [row]
    /\ Question.id row = 8
    /\ Question.answer row = ""%string
    /\ next_id (db w') = 9.
Proof.
  intros w'.
  edestruct (create_question_success (fun _ => true) bad_question
               (trivia_world (fun _ => 0%nat)))
    as (b & vq & va & vc & vd & row & Hjson & _ & [Ha Hva] & _ & _ & Hid & _ & _
        & Hquestions & _ & Hnext & _ & _);
    [reflexivity |].
  exists row. injection Hjson as <-.
  injection Ha as <-. injection Hva as Hva.
  split; [exact Hquestions |]. split; [exact Hid |].
  split; [by symmetry | exact Hnext].
Defined.

(** ** Creation followed by listing or deletion *)

Lemma filter_ne_all (id : Z) (l : list Question.t) :
  (forall q, q ∈ l -> Question.id q ≠ id) ->
  filter (fun r => Question.id r ≠ id) l = l.
Proof.
  induction l as [| q l IH]; intros Hall; [done |].
  rewrite filter_cons_True by (apply Hall; left).
  rewrite IH; [done |]. intros r Hr. apply Hall. by right.
Qed.

Lemma delete_question_found (id : Z) (w : world) (q : Question.t) :
  find (fun q => Question.id q =? id) (questions (db w)) = Some q ->
  (delete_question id w).1 = Return (DeletedPayload id).
Proof.
  intros Hfind. unfold delete_question, try_except, bind, Question_query_get.
  by rewrite Hfind.
Qed.

Lemma find_is_Some_elem (id : Z) (l : list Question.t) (q : Question.t) :
  q ∈ l -> Question.id q = id ->
  is_Some (find (fun q => Question.id q =? id) l).
Proof.
  intros Hq Hid. destruct (find _ l) as [r |] eqn:Hfind; [done |].
  apply list_elem_of_In in Hq.
  pose proof (find_none _ _ Hfind q Hq) as Hne. cbn in Hne.
  apply Z.eqb_neq in Hne. done.
Qed.

Section Creation_composed.
Variable accepts : Question.t -> bool.

(** X7. The created question ends the last page of the listing. After a
    successful [create_question] on a store of [N] questions,
    [show_questions] for page [N / 10 + 1] succeeds, counts the new
    question in [total_questions], and the last question on its page is
    the new one, under the identifier that the creation answered. *)
Theorem created_question_ends_last_page (request listing : Request) (w w' : world)
    (created : Z) (page : list (gmap string value)) (total : nat) :
  create_question accepts request w = (Return (CreatedPayload created page total), w') ->
  args_get_page listing = Z.of_nat (length (questions (db w))) / 10 + 1 ->
  exists listed new,
    show_questions listing w'
    = (Return (QuestionsPayload listed total (categories_dict_of (categories (db w)))),
       w')
    /\ last listed = Some new
    /\ new !! "id" = Some (VInt created).
Proof.
  intros Hcreate Hpage.
  apply create_question_created in Hcreate as (row & Hid & _ & -> & ->).
  set (old := questions (db w)) in *.
  assert (Hdiv : 0 <= Z.of_nat (length old) / 10) by (apply Z.div_pos; lia).
  assert (Hmod := Z.mod_pos_bound (Z.of_nat (length old)) 10 ltac:(lia)).
  assert (Hdm := Z.div_mod (Z.of_nat (length old)) 10 ltac:(lia)).
  assert (Hlisted : paginate listing (old ++ [row])
                    = drop (Z.to_nat (10 * (Z.of_nat (length old) / 10)))
                           (map Question.format old) ++ [Question.format row]).
  { rewrite paginate_window by lia. rewrite Hpage.
    replace (Z.of_nat (length old) / 10 + 1 - 1) with (Z.of_nat (length old) / 10) by lia.
    rewrite map_app. cbn [map].
    rewrite drop_app_le by (rewrite length_map; lia).
    apply take_ge. rewrite length_app, length_drop, length_map. cbn [length]. lia. }
  exists (paginate listing (old ++ [row])), (Question.format row).
  split; [| split].
  - unfold show_questions, Question_query_all, Category_query_all, bind.
    cbn [db set_db questions categories]. fold old.
    destruct (Nat.eqb_spec (length (paginate listing (old ++ [row]))) 0) as [Hnil | _].
    + rewrite Hlisted, length_app in Hnil. cbn [length] in Hnil. lia.
    + by rewrite length_app, Nat.add_1_r.
  - rewrite Hlisted. apply last_snoc.
  - by rewrite format_id, Hid.
Qed.

(** X8. Creation followed by deletion of the created identifier restores
    the stored questions, when no stored question bore the next
    identifier of the store: the deletion answers
    [{success: true, deleted: id}], the questions are the ones from
    before the creation, and the next identifier stays advanced, so the
    identifier is not given out again. *)
Theorem create_then_delete (request : Request) (w w' : world)
    (created : Z) (page : list (gmap string value)) (total : nat) :
  create_question accepts request w = (Return (CreatedPayload created page total), w') ->
  (forall q, q ∈ questions (db w) -> Question.id q ≠ next_id (db w)) ->
  (delete_question created w').1 = Return (DeletedPayload created)
  /\ questions (db (delete_question created w').2) = questions (db w)
  /\ categories (db (delete_question created w').2) = categories (db w)
  /\ next_id (db (delete_question created w').2) = next_id (db w) + 1.
Proof.
  intros Hcreate Hfresh.
  apply create_question_created in Hcreate as (row & Hid & Hnext & _ & ->).
  split; [| split; [| split]].
  - destruct (find_is_Some_elem created
                (questions (db w) ++ [row]) row) as [q Hq];
      [apply elem_of_app; right; left | done |].
    by apply (delete_question_found _ _ q).
  - rewrite delete_question_store. cbn [db set_db questions].
    rewrite filter_app, filter_ne_all by (by rewrite Hnext).
    rewrite filter_cons_False by (by intros []). by rewrite app_nil_r.
  - by destruct (delete_question_frame created
                   (set_db {| questions := questions (db w) ++ [row];
                              categories := categories (db w);
                              next_id := next_id (db w) + 1 |} w)) as (-> & _).
  - by destruct (delete_question_frame created
                   (set_db {| questions := questions (db w) ++ [row];
                              categories := categories (db w);
                              next_id := next_id (db w) + 1 |} w)) as (_ & -> & _).
Qed.
End Creation_composed.

(** After the creation of question 8 in the store of the scenarios, whose
    four questions fill less than a page, page 1 ends with question 8. *)
Lemma created_question_ends_last_page_witness :
  let w := trivia_world (fun _ => 0%nat) in
  let w' := (create_question (fun _ => true) bad_question w).2 in
  exists listed new,
    show_questions bad_question w'
    = (Return (QuestionsPayload listed 5 (categories_dict_of (categories (db w)))), w')
    /\ last listed = Some new
    /\ new !! "id" = Some (VInt 8).
Proof.
  intros w w'.
  eapply (created_question_ends_last_page (fun _ => true) bad_question bad_question w);
    reflexivity.
Defined.

(** Question 8 is created in the store of the scenarios and deleted
    again. *)
Lemma create_then_delete_witness :
  let w := trivia_world (fun _ => 0%nat) in
  let w' := (create_question (fun _ => true) bad_question w).2 in
  (delete_question 8 w').1 = Return (DeletedPayload 8)
  /\ questions (db (delete_question 8 w').2) = questions trivia_store
  /\ categories (db (delete_question 8 w').2) = categories trivia_store
  /\ next_id (db (delete_question 8 w').2) = 8 + 1.
Proof.
  intros w w'.
  eapply (create_then_delete (fun _ => true) bad_question w); [reflexivity |].
  intros q Hq. vm_compute in Hq.
  repeat (apply elem_of_cons in Hq as [-> | Hq]; [done |]).
  by apply elem_of_nil in Hq.
Defined.

(** ** What a request does to the store *)

Lemma keeps_db_ret {A} (a : A) : keeps_db (ret a).
Proof. done. Qed.

Lemma keeps_db_raise {A} (e : exn) : keeps_db (@raise A e).
Proof. done. Qed.

Lemma keeps_db_bind {A B} (m : M A) (k : A -> M B) :
  keeps_db m -> (forall a, keeps_db (k a)) -> keeps_db (bind m k).
Proof.
  intros Hm Hk w. unfold bind. specialize (Hm w).
  destruct (m w) as [[a | e] w1]; [| done]. cbn in Hm. by rewrite Hk.
Qed.

Lemma keeps_db_random_choice {A} (seq : list A) : keeps_db (random_choice seq).
Proof. intros w. unfold random_choice. by destruct seq. Qed.

Lemma keeps_db_filter_by_category (v : value) :
  keeps_db (Question_query_filter_by_category v).
Proof. intros w. unfold Question_query_filter_by_category. by destruct (as_text v). Qed.

Lemma keeps_db_one_or_none (id : Z) : keeps_db (Category_query_one_or_none id).
Proof.
  intros w. unfold Category_query_one_or_none.
  by destruct (filter _ _) as [| c [| c' l]].
Qed.

Lemma keeps_db_getitem {V} (d : gmap string V) (key : string) : keeps_db (getitem d key).
Proof. intros w. unfold getitem. by destruct (d !! key). Qed.

(** The steps of the views that read the store or the request. *)
Ltac keeps_db_step :=
  first
    [ apply keeps_db_ret | apply keeps_db_raise | apply keeps_db_random_choice
    | apply keeps_db_filter_by_category | apply keeps_db_one_or_none
    | apply keeps_db_getitem
    | apply keeps_db_bind; [| intros ?]
    | match goal with
      | |- keeps_db (if ?b then _ else _) => destruct b
      | |- keeps_db (match ?x with _ => _ end) => destruct x
      | |- keeps_db _ => by intros ?
      end ].

Lemma keeps_db_show_categories : keeps_db show_categories.
Proof. unfold show_categories. repeat keeps_db_step. Qed.

Lemma keeps_db_show_questions (request : Request) : keeps_db (show_questions request).
Proof. unfold show_questions. repeat keeps_db_step. Qed.

Lemma keeps_db_search_questions (request : Request) :
  keeps_db (search_questions request).
Proof.
  unfold search_questions, get_json, body_get. repeat keeps_db_step.
Qed.

Lemma keeps_db_show_questions_by_category (request : Request) (id : Z) :
  keeps_db (show_questions_by_category request id).
Proof. unfold show_questions_by_category. repeat keeps_db_step. Qed.

Lemma keeps_db_fuel_lift {A} (m : M A) : keeps_db m -> keeps_db_fuel (lift m).
Proof. intros Hm w o w' [= Heq]. specialize (Hm w). by rewrite Heq in Hm. Qed.

Lemma keeps_db_fuel_then {A B} (m : M A) (k : A -> Mfuel B) :
  keeps_db m -> (forall a, keeps_db_fuel (k a)) -> keeps_db_fuel (then_ m k).
Proof.
  intros Hm Hk w o w'. unfold then_. specialize (Hm w).
  destruct (m w) as [[a | e] w1]; cbn in Hm.
  - intros Hrun. apply Hk in Hrun. congruence.
  - intros [= _ <-]. done.
Qed.

Lemma keeps_db_fuel_finish {A B} (m : Mfuel A) (k : A -> B) :
  keeps_db_fuel m -> keeps_db_fuel (finish m k).
Proof.
  intros Hm w o w'. unfold finish. specialize (Hm w).
  destruct (m w) as [[[a | e] w1] |]; [| | done]; intros [= _ <-]; eauto.
Qed.

Lemma keeps_db_fuel_while {S R} (fuel : nat) (cond : S -> bool)
    (body : S -> M (pass S R)) (s : S) :
  (forall s, keeps_db (body s)) -> keeps_db_fuel (while fuel cond body s).
Proof.
  intros Hbody. revert s.
  induction fuel as [| fuel IH]; intros s w o w'; cbn [while];
    destruct (cond s); try done; try (by intros [= _ <-]).
  specialize (Hbody s w).
  destruct (body s w) as [[[s1 | r] | e] w1]; cbn in Hbody.
  - intros Hrun. apply IH in Hrun. congruence.
  - by intros [= _ <-].
  - by intros [= _ <-].
Qed.

Lemma keeps_db_quiz_loop_body (questions : list Question.t)
    (previous_questions : option (list value)) (s : quiz_locals) :
  keeps_db (quiz_loop_body questions previous_questions s).
Proof. unfold quiz_loop_body, len. repeat keeps_db_step. Qed.

(** The quiz draws from the random generator but leaves the store as it
    was. *)
Lemma keeps_db_get_quiz_question (fuel : nat) (request : Request) :
  keeps_db_fuel (get_quiz_question fuel request).
Proof.
  unfold get_quiz_question. apply keeps_db_fuel_then.
  - unfold get_json, body_get_quiz_category, body_get_previous_questions,
      object_getitem, contains.
    repeat keeps_db_step.
  - intros [[questions previous_questions] locals].
    apply keeps_db_fuel_finish, keeps_db_fuel_while.
    intros s. apply keeps_db_quiz_loop_body.
Qed.

Lemma store_ok_delete (id : Z) (w : world) :
  store_ok (db w) -> store_ok (db (delete_question id w).2).
Proof.
  intros [Hnodup Hbelow].
  destruct (delete_question_frame id w) as (_ & Hnext & _).
  split.
  - rewrite delete_question_store.
    eapply sublist_NoDup; [exact Hnodup |]. apply fmap_sublist, sublist_filter.
  - intros q. rewrite delete_question_store, Hnext.
    intros [_ Hq]%list_elem_of_filter. by apply Hbelow.
Qed.

(** The path a rule matches. *)
Lemma match_path_nil_inv (p : list string) (args : list Z) :
  match_path [] p = Some args -> p = [] /\ args = [].
Proof. destruct p; [by intros [= <-] | done]. Qed.

Lemma match_path_lit_inv (s : string) (pat : list segment) (p : list string)
    (args : list Z) :
  match_path (Lit s :: pat) p = Some args ->
  exists p', p = s :: p' /\ match_path pat p' = Some args.
Proof.
  destruct p as [| x p']; [done |]. cbn [match_path].
  destruct (String.eqb_spec s x) as [<- | _]; [| done]. by exists p'.
Qed.

Lemma match_path_int_inv (pat : list segment) (p : list string) (args : list Z) :
  match_path (IntArg :: pat) p = Some args ->
  exists x p' n args',
    p = x :: p' /\ int_converter x = Some n
    /\ match_path pat p' = Some args' /\ args = n :: args'.
Proof.
  destruct p as [| x p']; [done |]. cbn [match_path].
  destruct (int_converter x) as [n |] eqn:Hx; [| done].
  destruct (match_path pat p') as [args' |] eqn:Hrest; [| done].
  intros [= <-]. by exists x, p', n, args'.
Qed.

Lemma matching_rules_elem (p : list string) (r : rule) (args : list Z) :
  (r, args) ∈ matching_rules p ->
  r ∈ url_map /\ match_path (pattern r) p = Some args.
Proof.
  unfold matching_rules. intros (r' & Hr' & Hmatch)%list_elem_of_omap.
  destruct (match_path (pattern r') p) as [args' |] eqn:Hpath; [| done].
  by injection Hmatch as <- <-.
Qed.

Section Requests_and_the_store.
Variable accepts : Question.t -> bool.

Lemma store_ok_create (request : Request) (w : world) :
  store_ok (db w) -> store_ok (db (create_question accepts request w).2).
Proof.
  intros [Hnodup Hbelow].
  destruct (create_question_outcome accepts request w)
    as [(created & page & total & w' & Hrun) | (e & Hrun & _)];
    [| by rewrite Hrun].
  rewrite Hrun. apply create_question_created in Hrun as (row & Hid & Hnext & _ & ->).
  split; simpl.
  - rewrite fmap_app. apply NoDup_app. split; [done |]. split.
    + intros i (q & -> & Hq)%list_elem_of_fmap. cbn [fmap list_fmap].
      intros Heq%list_elem_of_singleton. specialize (Hbelow q Hq). lia.
    + apply NoDup_singleton.
  - intros q [Hq | ->%list_elem_of_singleton]%elem_of_app.
    + specialize (Hbelow q Hq). lia.
    + lia.
Qed.

(** Every view called with the arguments of its rule. *)
Lemma store_ok_call_view (fuel : nat) (e : endpoint) (args : list Z)
    (request : Request) (w w' : world) (o : outcome payload) :
  call_view accepts fuel e args request w = Some (o, w') ->
  store_ok (db w) -> store_ok (db w').
Proof.
  intros Hrun Hok.
  assert (Hread : forall m : M payload,
            keeps_db m -> lift m w = Some (o, w') -> store_ok (db w')).
  { intros m Hm Hlift. apply keeps_db_fuel_lift in Hlift; [| done]. by rewrite Hlift. }
  destruct e, args as [| a [| b args]]; cbn [call_view] in Hrun;
    try (by apply (Hread _ (keeps_db_raise TypeError)));
    try (by eapply Hread; [| exact Hrun];
            first [ apply keeps_db_show_categories | apply keeps_db_show_questions
                  | apply keeps_db_search_questions
                  | apply keeps_db_show_questions_by_category ]).
  - injection Hrun as Hrun. pose proof (store_ok_delete a w Hok) as Hdel.
    by rewrite Hrun in Hdel.
  - injection Hrun as Hrun. pose proof (store_ok_create request w Hok) as Hcre.
    by rewrite Hrun in Hcre.
  - apply keeps_db_get_quiz_question in Hrun. by rewrite Hrun.
Qed.

(** X9. Every request keeps the identifiers in order. When the stored
    questions have distinct identifiers, all below the next identifier of
    the store, they still have after any request that is answered,
    whatever its method, path and body, creation and deletion
    included. *)
Theorem requests_keep_store_ok (fuel : nat) (request : Request) (w w' : world)
    (response : Response) :
  store_ok (db w) ->
  full_dispatch_request accepts fuel request w = Some (response, w') ->
  store_ok (db w').
Proof.
  intros Hok. unfold full_dispatch_request.
  destruct (matching_rules (path request)) as [| found rest];
    [by intros [= _ <-] |].
  destruct (bool_decide (method request = OPTIONS)); [by intros [= _ <-] |].
  destruct (find _ _) as [[r args] |]; [| by intros [= _ <-]].
  destruct (call_view _ _ _ _ _ _) as [[o w1] |] eqn:Hview; [| done].
  intros [= _ <-]. by eapply store_ok_call_view.
Qed.

(** X10. Only creation and deletion write to the store. A request whose
    answer leaves the store changed is either a [POST] to [/questions] or
    a [GET], [HEAD] or [DELETE] to [/questions/<int:id>]; every other
    request, the quiz included, leaves the store as it was. *)
Theorem only_creation_and_deletion_write (fuel : nat) (request : Request)
    (w w' : world) (response : Response) :
  full_dispatch_request accepts fuel request w = Some (response, w') ->
  db w' = db w
  \/ (method request = POST /\ path request = ["questions"])
  \/ (exists seg id,
         path request = ["questions"; seg] /\ int_converter seg = Some id
         /\ method request ∈ [GET; HEAD; DELETE]).
Proof.
  unfold full_dispatch_request.
  destruct (matching_rules (path request)) as [| found rest] eqn:Hrules;
    [intros [= _ <-]; by left |].
  destruct (bool_decide (method request = OPTIONS)); [intros [= _ <-]; by left |].
  destruct (find _ _) as [[r args] |] eqn:Hfind; [| intros [= _ <-]; by left].
  apply find_some in Hfind as [Hin Hallows]. rewrite <- Hrules in Hin.
  apply list_elem_of_In, matching_rules_elem in Hin as [Hr Hpath].
  destruct (call_view _ _ _ _ _ _) as [[o w1] |] eqn:Hview; [| done].
  intros [= _ <-].
  assert (Hread : forall m : M payload,
            keeps_db m -> lift m w = Some (o, w1) -> db w1 = db w).
  { intros m Hm Hlift. by apply keeps_db_fuel_lift in Hlift. }
  unfold url_map in Hr.
  repeat (apply elem_of_cons in Hr as [-> | Hr]); [| | | | | | | by apply elem_of_nil in Hr];
    cbn [pattern endpoint_of] in Hpath, Hview.
  - apply match_path_lit_inv in Hpath as (p1 & _ & [_ ->]%match_path_nil_inv).
    left. by apply (Hread _ keeps_db_show_categories).
  - apply match_path_lit_inv in Hpath as (p1 & _ & [_ ->]%match_path_nil_inv).
    left. by apply (Hread _ (keeps_db_show_questions request)).
  - apply match_path_lit_inv in Hpath as (p1 & Hp & Hpath).
    apply match_path_int_inv in Hpath
      as (seg & p2 & id & args' & -> & Hid & [-> ->]%match_path_nil_inv & ->).
    right; right. exists seg, id. split; [done |]. split; [done |].
    destruct (method request); try done; by_evaluation.
  - apply match_path_lit_inv in Hpath as (p1 & Hp & [-> ->]%match_path_nil_inv).
    right; left. split; [| done].
    by destruct (method request).
  - apply match_path_lit_inv in Hpath as (p1 & _ & Hpath).
    apply match_path_lit_inv in Hpath as (p2 & _ & [_ ->]%match_path_nil_inv).
    left. by apply (Hread _ (keeps_db_search_questions request)).
  - apply match_path_lit_inv in Hpath as (p1 & _ & Hpath).
    apply match_path_int_inv in Hpath as (seg & p2 & id & args' & _ & _ & Hpath & ->).
    apply match_path_lit_inv in Hpath as (p3 & _ & [_ ->]%match_path_nil_inv).
    left. by apply (Hread _ (keeps_db_show_questions_by_category request id)).
  - apply match_path_lit_inv in Hpath as (p1 & _ & [_ ->]%match_path_nil_inv).
    left. cbn [call_view] in Hview. by apply keeps_db_get_quiz_question in Hview.
Qed.
End Requests_and_the_store.

Lemma store_ok_trivia_store : store_ok trivia_store.
Proof.
  split.
  - by_evaluation.
  - intros q Hq. vm_compute in Hq.
    repeat (apply elem_of_cons in Hq as [-> | Hq]; [done |]).
    by apply elem_of_nil in Hq.
Qed.

(** The creation of question 8 in the store of the scenarios. *)
Lemma requests_keep_store_ok_witness :
  store_ok (db (create_question (fun _ => true) bad_question
                  (trivia_world (fun _ => 0%nat))).2).
Proof.
  eapply (requests_keep_store_ok (fun _ => true) 0 bad_question
            (trivia_world (fun _ => 0%nat))).
  - apply store_ok_trivia_store.
  - reflexivity.
Defined.

(** A quiz turn draws a question and leaves the store as it was. *)
Lemma only_creation_and_deletion_write_witness :
  let request := quiz_request 5 "Entertainment" [2; 6] in
  let w := trivia_world (fun _ => 1%nat) in
  db (tick w) = db w
  \/ (method request = POST /\ path request = ["questions"])
  \/ (exists seg id,
         path request = ["questions"; seg] /\ int_converter seg = Some id
         /\ method request ∈ [GET; HEAD; DELETE]).
Proof.
  intros request w.
  eapply (only_creation_and_deletion_write (fun _ => true) 0 request w).
  reflexivity.
Defined.

(** ** Searching *)

Section Search_requests.
Variable accepts : Question.t -> bool.

(** X11. A search without a usable term is answered with status 500. When
    the request has no body, or its body has no [searchTerm], or the
    term is empty, null or zero, the view never binds [search_term]; the
    exception it then raises has no handler, so a [POST] or [GET] to
    [/questions/search] gets the answer of the 500 handler, and the store
    is not read. *)
Theorem search_without_term (fuel : nat) (request : Request) (w : world) :
  path request = ["questions"; "search"] ->
  method request = POST \/ method request = GET ->
  match json request with
  | None => True
  | Some b => truthy (default VNone (entries b !! "searchTerm")) = false
  end ->
  (exists e, search_questions request w = (Raise e, w)
             /\ (e = AttributeError \/ e = UnboundLocalError "search_term"))
  /\ full_dispatch_request accepts fuel request w
     = Some ({| status := 500;
                data := Failure 500 "Sorry, the server is down. Please try again later." |},
             w).
Proof.
  intros Hpath Hmethod Hterm.
  assert (Hview : exists e, search_questions request w = (Raise e, w)
                            /\ (e = AttributeError \/ e = UnboundLocalError "search_term")).
  { unfold search_questions, get_json. rewrite bind_ret.
    destruct (json request) as [b |]; [| exists AttributeError; auto].
    cbn [body_get]. rewrite bind_ret, Hterm, bind_raise.
    exists (UnboundLocalError "search_term"). auto. }
  split; [done |].
  destruct Hview as (e & Hrun & He).
  unfold full_dispatch_request. rewrite Hpath.
  change (matching_rules ["questions"; "search"])
    with [({| pattern := [Lit "questions"; Lit "search"]; methods := [GET; POST];
              endpoint_of := search_questions_view |}, @nil Z)].
  assert (Hallowed : allows {| pattern := [Lit "questions"; Lit "search"];
                               methods := [GET; POST];
                               endpoint_of := search_questions_view |}
                            (method request) = true)
    by (by destruct Hmethod as [-> | ->]).
  assert (Hoptions : bool_decide (method request = OPTIONS) = false)
    by (by destruct Hmethod as [-> | ->]).
  rewrite Hoptions. cbn [find]. rewrite Hallowed.
  cbn [endpoint_of call_view lift]. rewrite Hrun.
  by destruct He as [-> | ->].
Qed.
End Search_requests.

(** A search for the empty string. *)
Lemma search_without_term_witness :
  full_dispatch_request (fun _ => true) 0 (search_request "")
                        (trivia_world (fun _ => 0%nat))
  = Some ({| status := 500;
             data := Failure 500 "Sorry, the server is down. Please try again later." |},
          trivia_world (fun _ => 0%nat)).
Proof.
  apply (search_without_term (fun _ => true) 0 (search_request "")); try reflexivity.
  by left.
Defined.

(** X12. A search counts every match and lists one page of them. With a
    term that is a string and not empty, the view aborts with 404 only
    when no question matches. When some do, [total_questions] is the
    number of all matches whatever the page, and a page that lies beyond
    them is answered with success and an empty list, not with 404. *)
Theorem search_page_beyond_matches (request : Request) (b : Body) (term : string)
    (w : world) (p : Z) :
  json request = Some b ->
  entries b !! "searchTerm" = Some (VStr term) ->
  term ≠ ""%string ->
  args_get_page request = p ->
  1 <= p ->
  let matches := filter (fun q => ilike (Question.question q) ("%" ++ term ++ "%") = true)
                        (questions (db w)) in
  (matches = [] -> search_questions request w = (Raise (HTTPException 404), w))
  /\ (matches ≠ [] ->
      search_questions request w
      = (Return (SearchPayload (paginate request matches) (length matches)), w))
  /\ (matches ≠ [] -> Z.of_nat (length matches) <= 10 * (p - 1) ->
      search_questions request w = (Return (SearchPayload [] (length matches)), w)).
Proof.
  intros Hjson Hterm Hnonempty Hpage Hp matches.
  rewrite (search_questions_unfold _ _ _ _ Hjson Hterm).
  destruct (String.eqb_spec term ""); [done |]. fold matches.
  assert (Hsome : matches ≠ [] ->
            match matches with
            | [] => (Raise (HTTPException 404), w)
            | q :: found =>
                (Return (SearchPayload (paginate request (q :: found))
                                       (length (q :: found))), w)
            end
            = (Return (SearchPayload (paginate request matches) (length matches)), w)).
  { by destruct matches. }
  split; [by intros -> |]. split; [done |].
  intros Hmatches Hbeyond. rewrite Hsome by done. do 3 f_equal.
  rewrite paginate_window by lia. rewrite Hpage.
  rewrite drop_ge; [done |]. rewrite length_map. lia.
Qed.

(** Every question of the store of the scenarios matches ["question"];
    page 2 of the four matches is empty. *)
Lemma search_page_beyond_matches_witness :
  let request := {| method := POST; path := ["questions"; "search"];
                    page_arg := Some 2;
                    json := Some {| entries := {[ "searchTerm" := VStr "question" ]};
                                    quiz_category := None;
                                    previous_questions := None |} |} in
  let w := trivia_world (fun _ => 0%nat) in
  search_questions request w = (Return (SearchPayload [] 4), w).
Proof.
  intros request w.
  eapply (search_page_beyond_matches request _ "question" w 2);
    try reflexivity; try done; try lia.
Defined.

(** ** The questions of a category, past the last one *)

(** X13. For a category that exists, [show_questions_by_category] never
    aborts: a page that lies beyond the questions of the category, and so
    every page of a category without questions, is answered with success,
    an empty list, the number of questions of the category and the type
    of the category. *)
Theorem category_page_beyond_questions (request : Request) (id : Z) (w : world)
    (c : Category.t) (p : Z) :
  filter (fun c => Category.id c = id) (categories (db w)) = [c] ->
  args_get_page request = p ->
  1 <= p ->
  let found := filter (fun q => Question.category q = str id) (questions (db w)) in
  Z.of_nat (length found) <= 10 * (p - 1) ->
  show_questions_by_category request id w
  = (Return (CategoryQuestionsPayload [] (length found) (Category.type c)), w).
Proof.
  intros Hcategory Hpage Hp found Hbeyond.
  unfold show_questions_by_category, bind, Category_query_one_or_none.
  rewrite Hcategory. cbn [Question_query_filter_by_category as_text]. fold found.
  unfold ret. do 3 f_equal.
  rewrite paginate_window by lia. rewrite Hpage.
  rewrite drop_ge; [done |]. rewrite length_map. lia.
Qed.

(** Category 4 of the store of the scenarios holds no question. *)
Lemma category_page_beyond_questions_witness :
  let request := {| method := GET; path := ["categories"; "4"; "questions"];
                    page_arg := None; json := None |} in
  let w := trivia_world (fun _ => 0%nat) in
  show_questions_by_category request 4 w
  = (Return (CategoryQuestionsPayload [] 0 "History"), w).
Proof.
  intros request w.
  apply (category_page_beyond_questions request 4 w
           {| Category.id := 4; Category.type := "History" |} 1);
    try reflexivity; vm_compute; discriminate.
Defined.

(** ** Searching without regard to case *)

Lemma lower_idemp (c : ascii) : lower (lower c) = lower c.
Proof. by destruct c as [[] [] [] [] [] [] [] []]. Qed.

(** Lowering a character neither makes nor unmakes a pattern character. *)
Lemma lower_pattern_character (c : ascii) :
  Ascii.eqb (lower c) "%" = Ascii.eqb c "%"
  /\ Ascii.eqb (lower c) "_" = Ascii.eqb c "_"
  /\ Ascii.eqb (lower c) "\" = Ascii.eqb c "\".
Proof. by destruct c as [[] [] [] [] [] [] [] []]. Qed.

Lemma same_pattern_character (c1 c2 : ascii) :
  lower c1 = lower c2 ->
  Ascii.eqb c1 "%" = Ascii.eqb c2 "%"
  /\ Ascii.eqb c1 "_" = Ascii.eqb c2 "_"
  /\ Ascii.eqb c1 "\" = Ascii.eqb c2 "\".
Proof.
  intros Hlower.
  destruct (lower_pattern_character c1) as (<- & <- & <-).
  destruct (lower_pattern_character c2) as (<- & <- & <-).
  by rewrite Hlower.
Qed.

Lemma like_match_fold_token (p : list like_token) (s : list ascii) :
  like_match (fold_token <$> p) s = like_match p s.
Proof.
  revert s. induction p as [| t p IH]; intros s; [done |].
  destruct t as [| | c]; cbn [fmap list_fmap fold_token].
  - induction s as [| d s IHs].
    + by rewrite !like_match_any_string, IH.
    + rewrite (like_match_any_string p), <- IHs, <- IH. apply like_match_any_string.
  - destruct s as [| d s]; [done |]. cbn [like_match]. apply IH.
  - destruct s as [| d s]; [done |]. cbn [like_match].
    by rewrite lower_idemp, IH.
Qed.

Lemma like_match_lower_text (p : list like_token) (s : list ascii) :
  like_match p (lower <$> s) = like_match p s.
Proof.
  revert s. induction p as [| t p IH]; intros s; [by destruct s |].
  destruct t as [| | c].
  - induction s as [| d s IHs].
    + rewrite !like_match_any_string. by rewrite <- IH.
    + rewrite (like_match_any_string p (d :: s)), <- IHs, <- IH.
      apply like_match_any_string.
  - destruct s as [| d s]; [done |]. cbn [fmap list_fmap like_match]. apply IH.
  - destruct s as [| d s]; [done |]. cbn [fmap list_fmap like_match].
    by rewrite lower_idemp, IH.
Qed.

(** Two patterns that differ in the case of their letters only have the
    same tokens, up to the case of the literal ones. *)
Lemma like_pattern_same_letters (l1 l2 : list ascii) :
  lower <$> l1 = lower <$> l2 ->
  fold_token <$> like_pattern l1 = fold_token <$> like_pattern l2.
Proof.
  remember (length l1) as n eqn:Hn. revert l1 l2 Hn.
  induction (lt_wf n) as [n _ IH]. intros l1 l2 -> Hsame.
  destruct l1 as [| c1 l1], l2 as [| c2 l2]; try done.
  injection Hsame as Hc Hsame.
  destruct (same_pattern_character c1 c2 Hc) as (Hpercent & Hunderscore & Hescape).
  cbn [like_pattern]. rewrite Hpercent, Hunderscore, Hescape.
  destruct (Ascii.eqb c2 "%").
  { cbn [fmap list_fmap fold_token]. f_equal.
    eapply IH; [| reflexivity | done]. cbn [length]. lia. }
  destruct (Ascii.eqb c2 "_").
  { cbn [fmap list_fmap fold_token]. f_equal.
    eapply IH; [| reflexivity | done]. cbn [length]. lia. }
  destruct (Ascii.eqb c2 "\").
  - destruct l1 as [| d1 l1], l2 as [| d2 l2]; try done.
    + cbn [fmap list_fmap fold_token]. by rewrite Hc.
    + injection Hsame as Hd Hsame. cbn [fmap list_fmap fold_token]. rewrite Hd. f_equal.
      eapply IH; [| reflexivity | done]. cbn [length]. lia.
  - cbn [fmap list_fmap fold_token]. rewrite Hc. f_equal.
    eapply IH; [| reflexivity | done]. cbn [length]. lia.
Qed.

(** The operator sees neither the case of the pattern nor that of the
    text. *)
Lemma ilike_same_letters (text1 text2 pattern1 pattern2 : string) :
  lower <$> list_ascii_of_string text1 = lower <$> list_ascii_of_string text2 ->
  lower <$> list_ascii_of_string pattern1 = lower <$> list_ascii_of_string pattern2 ->
  ilike text1 pattern1 = ilike text2 pattern2.
Proof.
  intros Htext Hpattern. unfold ilike.
  rewrite <- (like_match_fold_token (like_pattern (list_ascii_of_string pattern1))).
  rewrite (like_pattern_same_letters _ _ Hpattern), like_match_fold_token.
  rewrite <- (like_match_lower_text _ (list_ascii_of_string text1)), Htext.
  apply like_match_lower_text.
Qed.

(** X14. A search does not see the case of its term, whatever characters
    the term holds, nor the case of the questions. Two terms that differ
    in the case of their letters only match the same texts and get the
    same answer from [search_questions] in every store, and a term
    matches two texts alike when they differ in case only. *)
Theorem search_ignores_case (term1 term2 : string) :
  lower <$> list_ascii_of_string term1 = lower <$> list_ascii_of_string term2 ->
  (forall text, ilike text ("%" ++ term1 ++ "%") = ilike text ("%" ++ term2 ++ "%"))
  /\ (forall text1 text2,
         lower <$> list_ascii_of_string text1 = lower <$> list_ascii_of_string text2 ->
         ilike text1 ("%" ++ term1 ++ "%") = ilike text2 ("%" ++ term1 ++ "%"))
  /\ (forall w, search_questions (search_request term1) w
                = search_questions (search_request term2) w).
Proof.
  intros Hterm.
  assert (Hpattern : lower <$> list_ascii_of_string ("%" ++ term1 ++ "%")
                     = lower <$> list_ascii_of_string ("%" ++ term2 ++ "%")).
  { change ("%" ++ ?t ++ "%")%string with (String "%" (t ++ "%")).
    cbn [list_ascii_of_string fmap list_fmap].
    by rewrite !list_ascii_of_string_app, !fmap_app, Hterm. }
  assert (Hmatch : forall text,
             ilike text ("%" ++ term1 ++ "%") = ilike text ("%" ++ term2 ++ "%"))
    by (intros text; by apply ilike_same_letters).
  split; [done |]. split; [intros text1 text2 Htext; by apply ilike_same_letters |].
  intros w.
  erewrite (search_questions_unfold (search_request term1) _ term1); [| done | done].
  erewrite (search_questions_unfold (search_request term2) _ term2); [| done | done].
  assert (Hempty : String.eqb term1 "" = String.eqb term2 "").
  { destruct term1, term2; done. }
  rewrite Hempty.
  rewrite (list_filter_iff _
             (fun q => ilike (Question.question q) ("%" ++ term2 ++ "%") = true));
    [done |].
  intros q. by rewrite Hmatch.
Qed.

(** ["QUESTION 3"] and ["question 3"]. *)
Lemma search_ignores_case_witness :
  let w := trivia_world (fun _ => 0%nat) in
  search_questions (search_request "QUESTION 3") w
  = search_questions (search_request "question 3") w.
Proof.
  intros w. by apply (search_ignores_case "QUESTION 3" "question 3").
Defined.

(** ** More on the quiz *)

(** X15. A quiz turn on a pool of which nothing was served always gives a
    question. When the pool is not empty and no candidate is among the
    served identifiers, as on the first turn of a quiz, the view returns
    one of the candidates after a single draw, for every random generator
    and without entering its loop. *)
Theorem quiz_fresh_pool_returns (fuel : nat) (request : Request) (w : world)
    (category_id : value) (served : list value) :
  quiz_input request category_id served ->
  candidates (db w) category_id ≠ [] ->
  (forall q, q ∈ candidates (db w) category_id -> VInt (Question.id q) ∉ served) ->
  exists chosen,
    chosen ∈ candidates (db w) category_id
    /\ get_quiz_question fuel request w
       = Some (Return (QuizQuestionPayload (Question.format chosen)), tick w).
Proof.
  intros Hinput Hnonempty Hfresh.
  destruct (candidates (db w) category_id) as [| x pool] eqn:Hpool; [done |].
  exists (drawn w x pool). split; [apply drawn_elem_of |].
  apply (quiz_fresh_draw _ _ _ _ _ _ Hinput Hpool), Hfresh, drawn_elem_of.
Qed.

(** The first turn of a quiz over all categories. *)
Lemma quiz_fresh_pool_returns_witness :
  exists chosen,
    chosen ∈ candidates (db (trivia_world (fun n => n))) (VInt 0)
    /\ get_quiz_question 0 (quiz_request 0 "click" []) (trivia_world (fun n => n))
       = Some (Return (QuizQuestionPayload (Question.format chosen)),
               tick (trivia_world (fun n => n))).
Proof.
  apply (quiz_fresh_pool_returns 0 _ _ (VInt 0) []).
  - apply (quiz_request_input 0 "click" []).
  - vm_compute. discriminate.
  - intros q _. apply not_elem_of_nil.
Defined.



(** X17. When the quiz returns at all, one pass through its loop is
    enough, and it fails to return in exactly one case. On a pool that is
    not empty the view has no answer for any budget of passes when the
    first question it drew was served before and the number of served
    identifiers differs from the size of the pool; in every other case a
    budget of one pass gives its answer, and a larger budget the same
    one. *)
Theorem quiz_returns_or_never (request : Request) (w : world)
    (category_id : value) (served : list value) (x : Question.t)
    (pool : list Question.t) :
  quiz_input request category_id served ->
  candidates (db w) category_id = x :: pool ->
  let stale := VInt (Question.id (drawn w x pool)) ∈ served
               /\ length served ≠ length (x :: pool) in
  (stale -> forall fuel, get_quiz_question fuel request w = None)
  /\ (~ stale ->
      get_quiz_question 1 request w ≠ None
      /\ forall fuel, get_quiz_question (S fuel) request w
                      = get_quiz_question 1 request w).
Proof.
  intros Hinput Hpool stale. split.
  - intros [Hold Hlen] fuel.
    by apply (quiz_served_draw_diverges _ _ _ _ _ _ Hinput Hpool).
  - intros Hnot.
    destruct (decide (VInt (Question.id (drawn w x pool)) ∈ served)) as [Hold | Hfresh].
    + destruct (decide (length served = length (x :: pool))) as [Hlen | Hlen];
        [| destruct Hnot; by split].
      split; [| intros fuel];
        by rewrite !(quiz_served_draw_game_over _ _ _ _ _ _ Hinput Hpool).
    + split; [| intros fuel];
        by rewrite !(quiz_fresh_draw _ _ _ _ _ _ Hinput Hpool).
Qed.

(** The pool 2, 3, 6 after 2 and 6 were served: no answer when the first
    draw is question 2, an answer after one pass when it is question 3. *)
Lemma quiz_returns_or_never_witness :
  (forall fuel, get_quiz_question fuel (quiz_request 5 "Entertainment" [2; 6])
                                  (trivia_world (fun _ => 0%nat)) = None)
  /\ get_quiz_question 1 (quiz_request 5 "Entertainment" [2; 6])
                       (trivia_world (fun _ => 1%nat)) ≠ None.
Proof.
  split.
  - apply (proj1 (quiz_returns_or_never (quiz_request 5 "Entertainment" [2; 6])
                    (trivia_world (fun _ => 0%nat)) (VInt 5) (VInt <$> [2; 6])
                    (trivia 2 "5") [trivia 3 "5"; trivia 6 "5"]
                    (quiz_request_input 5 "Entertainment" [2; 6]) eq_refl)).
    split; [by_evaluation | vm_compute; discriminate].
  - apply (proj2 (quiz_returns_or_never (quiz_request 5 "Entertainment" [2; 6])
                    (trivia_world (fun _ => 1%nat)) (VInt 5) (VInt <$> [2; 6])
                    (trivia 2 "5") [trivia 3 "5"; trivia 6 "5"]
                    (quiz_request_input 5 "Entertainment" [2; 6]) eq_refl)).
    intros [Hold _]. revert Hold. by_evaluation.
Defined.



(** ** The status of a response *)




















Section Responses.
Variable accepts : Question.t -> bool.



End Responses.


(** ** Searching for a plain term *)

(** X20. A search for a term without pattern characters finds the
    questions that contain it. When the term is not empty and holds no
    percent sign, underscore or backslash, a stored question is among the
    matches exactly when its text in lower case holds the term in lower
    case somewhere inside it; the view lists the matches in the order of
    the store, and aborts with 404 when there is none. *)
Theorem search_finds_containing_questions (request : Request) (b : Body)
    (term : string) (w : world) :
  json request = Some b ->
  entries b !! "searchTerm" = Some (VStr term) ->
  term ≠ ""%string ->
  forallb plain (list_ascii_of_string term) = true ->
  exists matches,
    (forall q, q ∈ matches
               <-> q ∈ questions (db w)
                   /\ exists before after,
                        lower <$> list_ascii_of_string (Question.question q)
                        = before ++ (lower <$> list_ascii_of_string term) ++ after)
    /\ matches `sublist_of` questions (db w)
    /\ search_questions request w
       = match matches with
         | [] => (Raise (HTTPException 404), w)
         | _ :: _ =>
             (Return (SearchPayload (paginate request matches) (length matches)), w)
         end.
Proof.
  intros Hjson Hterm Hnonempty Hplain.
  exists (filter (fun q => contains_term term (Question.question q) = true)
                 (questions (db w))).
  split; [| split].
  - intros q. rewrite list_elem_of_filter. unfold contains_term.
    rewrite is_substring_spec. tauto.
  - apply sublist_filter.
  - rewrite (search_questions_plain_term _ _ _ _ Hjson Hterm Hnonempty Hplain).
    by destruct (filter _ _).
Qed.

(** ["ion 3"] is found inside ["Question 3"] and in no other question of
    the store of the scenarios. *)
Lemma search_finds_containing_questions_witness :
  exists matches,
    (forall q, q ∈ matches
               <-> q ∈ questions trivia_store
                   /\ exists before after,
                        lower <$> list_ascii_of_string (Question.question q)
                        = before ++ (lower <$> list_ascii_of_string "ion 3") ++ after)
    /\ matches `sublist_of` questions trivia_store
    /\ search_questions (search_request "ion 3") (trivia_world (fun _ => 0%nat))
       = match matches with
         | [] => (Raise (HTTPException 404), trivia_world (fun _ => 0%nat))
         | _ :: _ =>
             (Return (SearchPayload (paginate (search_request "ion 3") matches)
                                    (length matches)),
              trivia_world (fun _ => 0%nat))
         end.
Proof.
  eapply (search_finds_containing_questions (search_request "ion 3") _ "ion 3"
            (trivia_world (fun _ => 0%nat))); reflexivity || done.
Defined.
